(** * climate-site: the admin backend of [server.js]

    A shallow embedding of the request handlers of [server.js] (the JSON
    store, the image list maintenance of an update, the authentication
    gate, the list ordering and the detail page) together with the
    properties the specification states about them.

    Layout: the primitives of the JavaScript runtime the handlers call
    ([JS]), the record store, the handlers, closed instances of the
    runtime parameters and sample data, then the theorems. *)

From Stdlib Require Import String Ascii List ZArith Lia Bool Arith.
From Stdlib Require Import Sorted Permutation.
Import ListNotations.

Open Scope string_scope.
Open Scope Z_scope.

(** ** Runtime primitives

    A JavaScript string is a sequence of code units; the model keeps the
    code units below 256, one [ascii] each. *)

Module JS.

(** Truthiness of a string: only the empty string is falsy. *)
Definition truthy (s : string) : bool := negb (s =? "")%string.

(** WhiteSpace and LineTerminator code units (below 256): TAB, LF, VT, FF,
    CR, SP, NBSP. *)
Definition is_space (c : ascii) : bool :=
  let n := nat_of_ascii c in
  ((9 <=? n)%nat && (n <=? 13)%nat) || (n =? 32)%nat || (n =? 160)%nat.

Fixpoint trimStart (s : string) : string :=
  match s with
  | String c r => if is_space c then trimStart r else s
  | EmptyString => EmptyString
  end.

Fixpoint trimEnd (s : string) : string :=
  match s with
  | String c r =>
      match trimEnd r with
      | EmptyString => if is_space c then EmptyString else String c EmptyString
      | r' => String c r'
      end
  | EmptyString => EmptyString
  end.

(** [String.prototype.trim]. *)
Definition trim (s : string) : string := trimEnd (trimStart s).

(** [s.split(sep)] for a one-character separator: the pieces between the
    separators, so [n] separators give [n + 1] pieces. *)
Fixpoint split (sep : ascii) (s : string) : list string :=
  match s with
  | EmptyString => [EmptyString]
  | String c r =>
      if Ascii.eqb c sep then EmptyString :: split sep r
      else match split sep r with
           | p :: ps => String c p :: ps
           | [] => [String c EmptyString]
           end
  end.

(** [s.endsWith(t)]: the last [length t] code units of [s] are [t]. *)
Definition endsWith (s t : string) : bool :=
  let ls := String.length s in
  let lt := String.length t in
  if (lt <=? ls)%nat then (substring (ls - lt) lt s =? t)%string else false.

(** [s.startsWith(p)]. *)
Fixpoint startsWith (s p : string) {struct p} : bool :=
  match p with
  | EmptyString => true
  | String a p' =>
      match s with
      | String b s' => Ascii.eqb a b && startsWith s' p'
      | EmptyString => false
      end
  end.

(** [s.replace(/c/g, by)] for a one-character pattern. *)
Fixpoint replaceAll (c : ascii) (by_ : string) (s : string) : string :=
  match s with
  | EmptyString => EmptyString
  | String d r =>
      if Ascii.eqb d c then by_ ++ replaceAll c by_ r
      else String d (replaceAll c by_ r)
  end.

Definition digit (c : ascii) : option Z :=
  let n := nat_of_ascii c in
  if (48 <=? n)%nat && (n <=? 57)%nat then Some (Z.of_nat (n - 48)) else None.

(** The longest decimal prefix of [s], read from the accumulator [acc];
    [seen] tells whether a digit was read. *)
Fixpoint digits (seen : bool) (acc : Z) (s : string) : option Z :=
  match s with
  | String c r =>
      match digit c with
      | Some d => digits true (10 * acc + d) r
      | None => if seen then Some acc else None
      end
  | EmptyString => if seen then Some acc else None
  end.

(** [parseInt(s, 10)]: leading white space is skipped, then an optional
    sign, then the longest run of decimal digits; [None] is NaN. *)
Definition parseInt (s : string) : option Z :=
  match trimStart s with
  | String "-" r => option_map Z.opp (digits false 0 r)
  | String "+" r => digits false 0 r
  | r => digits false 0 r
  end.

(** [l.findIndex(f)]: the least index whose element satisfies [f], or -1. *)
Fixpoint findIndex {A} (f : A -> bool) (l : list A) : Z :=
  match l with
  | [] => -1
  | x :: r =>
      if f x then 0
      else let i := findIndex f r in if i =? -1 then -1 else i + 1
  end.

(** [l.splice(i, 1)] for an index [0 <= i]: the element removed, and the
    list that is left. *)
Definition splice1 {A} (i : nat) (l : list A) : option A * list A :=
  (nth_error l i, (firstn i l ++ skipn (S i) l)%list).

(** [Array.prototype.join]. *)
Fixpoint join (sep : string) (l : list string) : string :=
  match l with
  | [] => ""
  | [x] => x
  | x :: r => x ++ sep ++ join sep r
  end.

End JS.

(** ** JSON values

    What [JSON.parse] returns.  A number is carried by the text that
    [Number.prototype.toString] gives for it: the handlers never compute
    with a parsed number, they only turn it into a string. *)

#[local] Set Warnings "-register-all".

Inductive value :=
| JNull
| JBool (b : bool)
| JNum (text : string)
| JStr (s : string)
| JArr (elements : list value)
| JObj (fields : list (string * value)).

Definition isArray (v : value) : bool :=
  match v with JArr _ => true | _ => false end.

(** The abstract operation ToString on a parsed value.  An array joins its
    elements with commas, [null] elements giving the empty string.  A parsed
    object that has a member named [toString] has no string form: there the
    conversion throws a TypeError.  Such a value is outside this function;
    [stringable], below, tells the values that have a string form. *)
Fixpoint ToString (v : value) : string :=
  match v with
  | JNull => "null"
  | JBool true => "true"
  | JBool false => "false"
  | JNum t => t
  | JStr s => s
  | JArr l =>
      JS.join "," (map (fun x => match x with JNull => "" | _ => ToString x end) l)
  | JObj _ => "[object Object]"
  end.

(** ** The record store *)

(** The legacy [image] field holds one path or, as [readProjects] allows,
    an array of paths. *)
Inductive legacy :=
| One (path : string)
| Many (paths : list string).

(** A project record.  Every field but [id] may be absent from a stored
    object; [None] is the absent ([undefined]) field. *)
Module Project.

Record t := mk {
  id : string;
  title : option string;
  images : option (list string);
  image : option legacy;
  summary : option string;
  date : option string;
  outcomes : option (list string);
  results : option string;
  purpose : option string;
  createdAt : option string
}.

Definition set_title (v : option string) (p : t) : t :=
  mk (id p) v (images p) (image p) (summary p) (date p) (outcomes p)
     (results p) (purpose p) (createdAt p).

Definition set_images (v : option (list string)) (p : t) : t :=
  mk (id p) (title p) v (image p) (summary p) (date p) (outcomes p)
     (results p) (purpose p) (createdAt p).

Definition set_image (v : option legacy) (p : t) : t :=
  mk (id p) (title p) (images p) v (summary p) (date p) (outcomes p)
     (results p) (purpose p) (createdAt p).

Definition set_summary (v : option string) (p : t) : t :=
  mk (id p) (title p) (images p) (image p) v (date p) (outcomes p)
     (results p) (purpose p) (createdAt p).

Definition set_date (v : option string) (p : t) : t :=
  mk (id p) (title p) (images p) (image p) (summary p) v (outcomes p)
     (results p) (purpose p) (createdAt p).

Definition set_outcomes (v : option (list string)) (p : t) : t :=
  mk (id p) (title p) (images p) (image p) (summary p) (date p) v
     (results p) (purpose p) (createdAt p).

Definition set_results (v : option string) (p : t) : t :=
  mk (id p) (title p) (images p) (image p) (summary p) (date p) (outcomes p)
     v (purpose p) (createdAt p).

Definition set_purpose (v : option string) (p : t) : t :=
  mk (id p) (title p) (images p) (image p) (summary p) (date p) (outcomes p)
     (results p) v (createdAt p).

(** [p.images || []]. *)
Definition images_or_empty (p : t) : list string :=
  match images p with Some l => l | None => [] end.

End Project.

Definition project : Type := Project.t.

(** The part of the file system the handlers touch: the store document
    [projects.json] ([None] when it is missing or does not parse to an array
    of records) and the image paths whose files the handlers delete where
    they exist, oldest first.  The uploads folder is not part of it: multer
    stores the files of a request there before the POST and PUT handlers
    run, whatever they answer then. *)
Record disk := mkDisk {
  projectsFile : option (list project);
  unlinked : list string
}.

(** Truthiness of the legacy field: a non-empty string, or any array. *)
Definition legacy_truthy (v : legacy) : bool :=
  match v with
  | One s => JS.truthy s
  | Many _ => true
  end.

(** [Array.isArray(p.image) ? p.image : [p.image]]. *)
Definition legacy_paths (v : legacy) : list string :=
  match v with
  | Many l => l
  | One s => [s]
  end.

(** The callback of [data.map] in [readProjects]. *)
Definition migrate (p : project) : project :=
  let p1 :=
    match Project.image p, Project.images p with
    | Some v, None =>
        if legacy_truthy v
        then Project.set_image None (Project.set_images (Some (legacy_paths v)) p)
        else p
    | _, _ => p
    end in
  Project.set_images (Some (Project.images_or_empty p1)) p1.

Definition readProjects (d : disk) : list project :=
  match projectsFile d with
  | Some data => map migrate data
  | None => []
  end.

Definition writeProjects (l : list project) (d : disk) : disk :=
  mkDisk (Some l) (unlinked d).

(** [if (fs.existsSync(file)) fs.unlinkSync(file)] on the file of each path,
    in order; a failure is ignored. *)
Definition unlink (paths : list string) (d : disk) : disk :=
  mkDisk (projectsFile d) (unlinked d ++ paths)%list.

(** ** Requests and responses *)

(** The text fields of a request body.  The mutating routes take multipart
    forms, in which a text field sent once is a string; [None] is an absent
    field. *)
Module Body.

Record t := mk {
  title : option string;
  summary : option string;
  date : option string;
  outcomes : option string;
  results : option string;
  purpose : option string;
  removeImages : option string;
  makePrimary : option string
}.

End Body.

(** A request as the handlers see it: the [token] cookie, the [:id] route
    parameter, the body, and the stored names ([f.filename]) of the files
    multer accepted, in upload order. *)
Record request := mkRequest {
  token : option string;
  params_id : string;
  body : Body.t;
  files : list string
}.

Inductive payload :=
| Message (message : string)
| Records (l : list project)
| Record_ (p : project)
| OkProject (p : project)
| OkDeleted (p : project)
| Html (document : string)
| Text (text : string).

Record response := mkResponse {
  status : nat;
  sent : payload
}.

(** A handler reads and writes the disk and sends one response. *)
Definition handler : Type := disk -> response * disk.

(** What a handler takes from its environment when it creates a record:
    [uuidv4()] and [new Date().toISOString()]. *)
Record clock := mkClock {
  uuid : string;
  now : string
}.

(** [!x] for a possibly absent string. *)
Definition falsy (x : option string) : bool :=
  match x with
  | Some s => negb (JS.truthy s)
  | None => true
  end.

(** [text.split("\n").map((s) => s.trim()).filter(Boolean)]. *)
Definition lines (text : string) : list string :=
  filter JS.truthy (map JS.trim (JS.split "010" text)).

(** [path.join("assets", "images", "projects", f.filename)] with forward
    slashes, for a stored name (which has no separator in it). *)
Definition webPath (filename : string) : string :=
  "assets/images/projects/" ++ filename.

Definition Unauthorized : response := mkResponse 401 (Message "Unauthorized").
Definition NotFound : response := mkResponse 404 (Message "Not found").

(** ** The handlers

    Three functions of the runtime and of the libraries are parameters of
    the handlers: [Date.parse] ([None] is NaN), [JSON.parse] ([None] is a
    thrown SyntaxError) and [jwt.verify] against the configured secret
    ([false] is a thrown error: bad signature, expired or malformed
    token). *)

Section Server.

Variable Date_parse : string -> option Z.
Variable JSON_parse : string -> option value.
Variable jwt_verify : string -> bool.

(** *** The authentication gate *)

Definition requireAuth (req : request) (next : handler) : handler :=
  fun d =>
    if falsy (token req) then (Unauthorized, d)
    else
      match token req with
      | Some t => if jwt_verify t then next d else (Unauthorized, d)
      | None => (Unauthorized, d)
      end.

(** *** GET /api/projects *)

(** [new Date(p.date || p.createdAt || 0).getTime()]. *)
Definition time_of (p : project) : option Z :=
  if negb (falsy (Project.date p)) then
    match Project.date p with Some s => Date_parse s | None => Some 0 end
  else if negb (falsy (Project.createdAt p)) then
    match Project.createdAt p with Some s => Date_parse s | None => Some 0 end
  else Some 0.

(** The comparator [(a, b) => db - da].  A NaN difference counts as +0, as
    [Array.prototype.sort] takes it. *)
Definition newest_first (a b : project) : Z :=
  match time_of a, time_of b with
  | Some da, Some db => db - da
  | _, _ => 0
  end.

(** [Array.prototype.sort] is stable: with a consistent comparator its
    result is the one a stable insertion sort gives.  With a comparator that
    is not consistent (a NaN key among three records or more) the order is
    left to the engine and can differ from this one; it is a permutation of
    the list all the same. *)
Fixpoint insert {A} (cmp : A -> A -> Z) (x : A) (l : list A) : list A :=
  match l with
  | [] => [x]
  | y :: r => if cmp x y <=? 0 then x :: l else y :: insert cmp x r
  end.

Fixpoint sort {A} (cmp : A -> A -> Z) (l : list A) : list A :=
  match l with
  | [] => []
  | x :: r => insert cmp x (sort cmp r)
  end.

Definition listProjects : handler :=
  fun d =>
    let list := readProjects d in
    (mkResponse 200 (Records (sort newest_first list)), d).

(** *** GET /api/projects/:id *)

Definition has_id (i : string) (p : project) : bool := (Project.id p =? i)%string.

Definition getProject (req : request) : handler :=
  fun d =>
    match find (has_id (params_id req)) (readProjects d) with
    | None => (NotFound, d)
    | Some item => (mkResponse 200 (Record_ item), d)
    end.

(** *** POST /api/projects *)

Definition createProject (c : clock) (req : request) : handler :=
  fun d =>
    let b := body req in
    if falsy (Body.title b) || falsy (Body.summary b)
       || falsy (Body.date b) || falsy (Body.results b)
    then (mkResponse 400 (Message "Missing required fields"), d)
    else
      let images := map webPath (files req) in
      let list := readProjects d in
      let outcomesArray :=
        lines (if falsy (Body.outcomes b) then ""
               else match Body.outcomes b with Some s => s | None => "" end) in
      let item :=
        Project.mk (uuid c) (Body.title b) (Some images) None (Body.summary b)
          (Body.date b) (Some outcomesArray) (Body.results b)
          (if falsy (Body.purpose b) then Some "" else Body.purpose b)
          (Some (now c)) in
      (mkResponse 200 (OkProject item), writeProjects (list ++ [item]) d).

(** *** PUT /api/projects/:id *)

(** The list of identifiers to remove, from the [removeImages] text. *)
Definition removeList (raw : string) : list value :=
  match JSON_parse raw with
  | Some parsed =>
      if negb (isArray parsed) then []
      else match parsed with JArr l => l | _ => [] end
  | None =>
      map JStr (filter JS.truthy (map JS.trim (JS.split "," raw)))
  end.

(** [img === rem || img.endsWith(rem)]. *)
Definition matches (rem : value) (img : string) : bool :=
  match rem with
  | JStr s => (img =? s)%string || JS.endsWith img s
  | _ => JS.endsWith img (ToString rem)
  end.

(** One turn of [removeList.forEach]: the images left, and the paths whose
    files are deleted so far. *)
Definition removeOne (st : list string * list string) (rem : value)
  : list string * list string :=
  let imgIndex := JS.findIndex (matches rem) (fst st) in
  if negb (imgIndex =? -1) then
    match JS.splice1 (Z.to_nat imgIndex) (fst st) with
    | (Some removed, rest) => (rest, (snd st ++ [removed])%list)
    | (None, rest) => (rest, snd st)
    end
  else st.

Definition removeStep (raw : option string) (images : list string)
  : list string * list string :=
  if falsy raw then (images, [])
  else
    match raw with
    | Some text => fold_left removeOne (removeList text) (images, [])
    | None => (images, [])
    end.

(** [req.files.forEach((f) => images.push(webPath))]. *)
Definition appendStep (uploaded : list string) (images : list string) : list string :=
  (images ++ map webPath uploaded)%list.

(** The index [makePrimary] resolves to. *)
Definition targetIndex (mp : string) (images : list string) : Z :=
  let by_name :=
    JS.findIndex (fun img => (img =? mp)%string || JS.endsWith img mp) images in
  match JS.parseInt mp with
  | Some asInt =>
      if (asInt >=? 0) && (asInt <? Z.of_nat (List.length images)) then asInt
      else by_name
  | None => by_name
  end.

Definition primaryStep (raw : option string) (images : list string) : list string :=
  if falsy raw then images
  else
    match raw with
    | Some mp =>
        let i := targetIndex mp images in
        if i >? 0 then
          match JS.splice1 (Z.to_nat i) images with
          | (Some img, rest) => img :: rest
          | (None, rest) => rest
          end
        else images
    | None => images
    end.

(** [if (typeof v === "string") p.field = v]. *)
Definition assign {A} (set : option A -> project -> project) (v : option A)
  (p : project) : project :=
  match v with
  | Some _ => set v p
  | None => p
  end.

(** [list[idx] = p], the record mutated in place. *)
Fixpoint store_at (idx : nat) (p : project) (l : list project) : list project :=
  match l, idx with
  | [], _ => []
  | _ :: r, O => p :: r
  | x :: r, S n => x :: store_at n p r
  end.

(** The body of the handler once the record is found: the fields
    assigned, then the three image steps.  The result is the record as it
    is written back and the paths of the files deleted. *)
Definition edit (req : request) (p0 : project) : project * list string :=
  let b := body req in
  let p1 := assign Project.set_title (Body.title b) p0 in
  let p2 := assign Project.set_summary (Body.summary b) p1 in
  let p3 := assign Project.set_date (Body.date b) p2 in
  let p4 := assign Project.set_results (Body.results b) p3 in
  let p5 := assign Project.set_purpose (Body.purpose b) p4 in
  let p6 := assign Project.set_outcomes (option_map lines (Body.outcomes b)) p5 in
  let removal := removeStep (Body.removeImages b) (Project.images_or_empty p6) in
  let appended :=
    match files req with
    | [] => fst removal
    | _ => appendStep (files req) (fst removal)
    end in
  let ordered := primaryStep (Body.makePrimary b) appended in
  (Project.set_images (Some ordered) p6, snd removal).

Definition updateProject (req : request) : handler :=
  fun d =>
    let list := readProjects d in
    let idx := JS.findIndex (has_id (params_id req)) list in
    if idx =? -1 then (NotFound, d)
    else
      match nth_error list (Z.to_nat idx) with
      | None => (NotFound, d)
      | Some p0 =>
          let (p, gone) := edit req p0 in
          (mkResponse 200 (OkProject p),
           writeProjects (store_at (Z.to_nat idx) p list) (unlink gone d))
      end.

(** *** DELETE /api/projects/:id *)

Definition deleteProject (req : request) : handler :=
  fun d =>
    let list := readProjects d in
    let idx := JS.findIndex (has_id (params_id req)) list in
    if idx =? -1 then (NotFound, d)
    else
      match JS.splice1 (Z.to_nat idx) list with
      | (Some removed, rest) =>
          (mkResponse 200 (OkDeleted removed),
           writeProjects rest (unlink (Project.images_or_empty removed) d))
      | (None, _) => (NotFound, d)
      end.

(** *** The mutating routes

    [app.post(path, requireAuth, upload.array("images", 10), handler)] and
    its two siblings: the gate runs first, then the handler with the files
    multer stored. *)

Inductive endpoint :=
| PostProjects (c : clock)
| PutProject
| DeleteProject.

Definition endpoint_handler (e : endpoint) (req : request) : handler :=
  match e with
  | PostProjects c => createProject c req
  | PutProject => updateProject req
  | DeleteProject => deleteProject req
  end.

Definition route (e : endpoint) (req : request) : handler :=
  requireAuth req (endpoint_handler e req).

End Server.

(** ** GET /project/:id, the detail page

    The page is a template literal: fixed markup with nine holes.  The fixed
    markup is a parameter, [markup k] being the text before hole [k] (and
    [markup 9] the text after the last); [JSON.stringify] of the image list
    is the other parameter. *)

Section Page.

Variable markup : nat -> string.
Variable JSON_stringify : list string -> string.

(** [String(s || "")], then the three replacements in the order of the
    source. *)
Definition safe (s : option string) : string :=
  let text :=
    if falsy s then "" else match s with Some t => t | None => "" end in
  JS.replaceAll ">" "&gt;" (JS.replaceAll "<" "&lt;" (JS.replaceAll "&" "&amp;" text)).

Definition outcomesHtml (item : project) : string :=
  JS.join ""
    (map (fun o => "<li>" ++ safe (Some o) ++ "</li>")
       (match Project.outcomes item with Some l => l | None => [] end)).

(** [images[0] || ""]. *)
Definition primary (item : project) : string :=
  match Project.images_or_empty item with
  | img :: _ => img
  | [] => ""
  end.

Definition mainImageSrc (item : project) : string :=
  if JS.truthy (primary item) then "/" ++ safe (Some (primary item))
  else "/assets/images/placeholder.png".

(** The nine holes of the template, in document order. *)
Definition holes (item : project) : list string :=
  [ safe (Project.title item);        (* <title> *)
    safe (Project.title item);        (* <h1> *)
    mainImageSrc item;                (* src of the main image *)
    safe (Project.date item);
    safe (Project.summary item);
    outcomesHtml item;
    safe (Project.purpose item);
    safe (Project.results item);
    JSON_stringify (Project.images_or_empty item) ].

(** Markup and holes interleaved, starting from chunk [k]. *)
Fixpoint weave (k : nat) (hs : list string) : string :=
  match hs with
  | [] => markup k
  | h :: r => markup k ++ h ++ weave (S k) r
  end.

Definition html (item : project) : string := weave 0 (holes item).

Definition detailPage (req : request) : handler :=
  fun d =>
    match find (has_id (params_id req)) (readProjects d) with
    | None => (mkResponse 404 (Text "Project not found"), d)
    | Some item => (mkResponse 200 (Html (html item)), d)
    end.

End Page.

(** ** The specification's wording, for comparison *)

(** The sort key as the specification words it: the [date], and
    [createdAt] when the [date] is absent or does not parse. *)
Definition spec_time_of (Date_parse : string -> option Z) (p : project) : option Z :=
  match match Project.date p with Some s => Date_parse s | None => None end with
  | Some t => Some t
  | None => match Project.createdAt p with Some s => Date_parse s | None => None end
  end.

(** Newest first under a key: no record is followed by one with a greater
    key. *)
Definition descending (key : project -> option Z) (l : list project) : Prop :=
  StronglySorted (fun a b => forall x y, key a = Some x -> key b = Some y -> y <= x) l.

(** The records whose key is [k]. *)
Definition keyed (key : project -> option Z) (k : Z) (p : project) : bool :=
  match key p with Some t => t =? k | None => false end.

(** A key as a number, NaN read as 0. *)
Definition millis (key : project -> option Z) (p : project) : Z :=
  match key p with Some t => t | None => 0 end.

(** A comparator that is the difference of a key on the elements of [l],
    and the order it sorts into. *)
Definition by_key {A} (cmp : A -> A -> Z) (key : A -> Z) (l : list A) : Prop :=
  forall a b, In a l -> In b l -> cmp a b = key b - key a.

Definition ge_key {A} (key : A -> Z) (a b : A) : Prop := key b <= key a.

(** The text of a field, empty when the field is absent. *)
Definition text (x : option string) : string :=
  match x with Some s => s | None => "" end.

(** One character escaped as the specification lists them. *)
Definition escape_char (c : ascii) : string :=
  if Ascii.eqb c "&" then "&amp;"
  else if Ascii.eqb c "<" then "&lt;"
  else if Ascii.eqb c ">" then "&gt;"
  else String c "".

Fixpoint escape (s : string) : string :=
  match s with
  | EmptyString => ""
  | String c r => escape_char c ++ escape r
  end.

(** No [<], no [>], and every [&] opens one of the three entities. *)
Fixpoint inert (s : string) : bool :=
  match s with
  | EmptyString => true
  | String c r =>
      if Ascii.eqb c "<" || Ascii.eqb c ">" then false
      else if Ascii.eqb c "&"
           then (JS.startsWith r "amp;" || JS.startsWith r "lt;" || JS.startsWith r "gt;")
                && inert r
           else inert r
  end.

(** The reader's side: the three entities back to their characters. *)
Fixpoint unescape (s : string) : string :=
  match s with
  | EmptyString => ""
  | String c r =>
      if Ascii.eqb c "&" then
        match r with
        | String "a" (String "m" (String "p" (String ";" r'))) => String "&" (unescape r')
        | String "l" (String "t" (String ";" r')) => String "<" (unescape r')
        | String "g" (String "t" (String ";" r')) => String ">" (unescape r')
        | _ => String c (unescape r)
        end
      else String c (unescape r)
  end.

(** ** Instances of the runtime parameters

    Closed versions of the three parameters, to run the handlers on concrete
    requests.  The theorems below hold for every choice of the parameters. *)

Module Runtime.

(** *** Dates *)

Fixpoint all_digits (s : string) : bool :=
  match s with
  | EmptyString => true
  | String c r => match JS.digit c with Some _ => all_digits r | None => false end
  end.

(** A fixed-width decimal field. *)
Definition field (from width : nat) (s : string) : option Z :=
  let f := substring from width s in
  if all_digits f && (String.length f =? width)%nat then JS.digits false 0 f else None.

Definition at_ (i : nat) (c : ascii) (s : string) : bool :=
  match String.get i s with
  | Some d => Ascii.eqb c d
  | None => false
  end.

Definition leap (y : Z) : bool :=
  ((y mod 4 =? 0) && negb (y mod 100 =? 0)) || (y mod 400 =? 0).

Definition days_in_month (y m : Z) : Z :=
  if m =? 2 then (if leap y then 29 else 28)
  else if (m =? 4) || (m =? 6) || (m =? 9) || (m =? 11) then 30
  else 31.

(** Days from 1970-01-01 to the given civil date. *)
Definition days_from_epoch (y m d : Z) : Z :=
  let y' := if m <=? 2 then y - 1 else y in
  let era := y' / 400 in
  let yoe := y' - era * 400 in
  let mp := (m + 9) mod 12 in
  let doy := (153 * mp + 2) / 5 + d - 1 in
  let doe := yoe * 365 + yoe / 4 - yoe / 100 + doy in
  era * 146097 + doe - 719468.

Definition utc (y m d hh mm ss ms : Z) : option Z :=
  if (1 <=? m) && (m <=? 12) && (1 <=? d) && (d <=? days_in_month y m)
     && (hh <=? 23) && (mm <=? 59) && (ss <=? 59)
  then Some ((((days_from_epoch y m d * 24 + hh) * 60 + mm) * 60 + ss) * 1000 + ms)
  else None.

(** [Date.parse] on the two forms of the Date Time String Format that the
    store holds: the date-only form [YYYY-MM-DD] of a form field and the
    form [YYYY-MM-DDTHH:mm:ss.sssZ] that [toISOString] writes into
    [createdAt].  Both are UTC.  Any other text is NaN here. *)
Definition Date_parse (s : string) : option Z :=
  match field 0 4 s, field 5 2 s, field 8 2 s with
  | Some y, Some m, Some d =>
      if at_ 4 "-" s && at_ 7 "-" s then
        if (String.length s =? 10)%nat then utc y m d 0 0 0 0
        else if (String.length s =? 24)%nat && at_ 10 "T" s && at_ 13 ":" s
                && at_ 16 ":" s && at_ 19 "." s && at_ 23 "Z" s
        then match field 11 2 s, field 14 2 s, field 17 2 s, field 20 3 s with
             | Some hh, Some mm, Some ss, Some ms => utc y m d hh mm ss ms
             | _, _, _, _ => None
             end
        else None
      else None
  | _, _, _ => None
  end.

(** *** JSON texts *)

Definition quote : ascii := "034".

(** A string in double quotes, as it is written in a JSON text. *)
Definition quoted (s : string) : string := String quote (s ++ String quote "").

Definition json_ws (c : ascii) : bool :=
  let n := nat_of_ascii c in
  (n =? 32)%nat || (n =? 9)%nat || (n =? 10)%nat || (n =? 13)%nat.

Fixpoint skip_ws (s : string) : string :=
  match s with
  | String c r => if json_ws c then skip_ws r else s
  | EmptyString => EmptyString
  end.

Definition hex (c : ascii) : option nat :=
  let n := nat_of_ascii c in
  if (48 <=? n)%nat && (n <=? 57)%nat then Some (n - 48)%nat
  else if (97 <=? n)%nat && (n <=? 102)%nat then Some (n - 87)%nat
  else if (65 <=? n)%nat && (n <=? 70)%nat then Some (n - 55)%nat
  else None.

Definition push (c : ascii) (r : option (string * string)) : option (string * string) :=
  match r with
  | Some (t, rest) => Some (String c t, rest)
  | None => None
  end.

(** The characters of a string literal after its opening quote, and what
    follows the closing quote.  A [\u] escape of a code unit from 256 on is
    outside the strings of this model. *)
Fixpoint string_body (s : string) : option (string * string) :=
  match s with
  | EmptyString => None
  | String c r =>
      if Ascii.eqb c quote then Some ("", r)
      else if Ascii.eqb c "\" then
        match r with
        | String e r1 =>
            if Ascii.eqb e quote then push quote (string_body r1)
            else if Ascii.eqb e "\" then push "\" (string_body r1)
            else if Ascii.eqb e "/" then push "/" (string_body r1)
            else if Ascii.eqb e "b" then push "008" (string_body r1)
            else if Ascii.eqb e "f" then push "012" (string_body r1)
            else if Ascii.eqb e "n" then push "010" (string_body r1)
            else if Ascii.eqb e "r" then push "013" (string_body r1)
            else if Ascii.eqb e "t" then push "009" (string_body r1)
            else if Ascii.eqb e "u" then
              match r1 with
              | String h1 (String h2 (String h3 (String h4 r5))) =>
                  match hex h1, hex h2, hex h3, hex h4 with
                  | Some 0%nat, Some 0%nat, Some a, Some b =>
                      push (ascii_of_nat (16 * a + b)) (string_body r5)
                  | _, _, _, _ => None
                  end
              | _ => None
              end
            else None
        | EmptyString => None
        end
      else if (nat_of_ascii c <? 32)%nat then None
      else push c (string_body r)
  end.

Fixpoint span_digits (s : string) : string * string :=
  match s with
  | String c r =>
      match JS.digit c with
      | Some _ => let (a, b) := span_digits r in (String c a, b)
      | None => ("", s)
      end
  | EmptyString => ("", "")
  end.

(** A JSON number and what follows it.  For an integer literal the text
    kept is its decimal numeral (the text [toString] gives below 2^53); a
    literal with a fraction or an exponent is kept as it is written. *)
Definition number (s : string) : option (string * string) :=
  let (sign, s1) :=
    match s with String "-" r => ("-", r) | _ => ("", s) end in
  let (int, s2) :=
    match s1 with String "0" r => ("0", r) | _ => span_digits s1 end in
  if (int =? "")%string then None
  else
    let frac :=
      match s2 with
      | String "." r =>
          let (f, s3) := span_digits r in
          if (f =? "")%string then None else Some ("." ++ f, s3)
      | _ => Some ("", s2)
      end in
    match frac with
    | None => None
    | Some (f, s3) =>
        let exp :=
          match s3 with
          | String e r =>
              if Ascii.eqb e "e" || Ascii.eqb e "E" then
                let (esign, r1) :=
                  match r with
                  | String "-" r' => ("-", r')
                  | String "+" r' => ("+", r')
                  | _ => ("", r)
                  end in
                let (x, s4) := span_digits r1 in
                if (x =? "")%string then None
                else Some (String e (esign ++ x), s4)
              else Some ("", s3)
          | EmptyString => Some ("", s3)
          end in
        match exp with
        | None => None
        | Some (x, s4) =>
            if (f =? "")%string && (x =? "")%string && (int =? "0")%string
            then Some ("0", s4)
            else Some (sign ++ int ++ f ++ x, s4)
        end
    end.

Definition literal (word : string) (v : value) (s : string) : option (value * string) :=
  if JS.startsWith s word
  then Some (v, substring (String.length word) (String.length s - String.length word) s)
  else None.

(** The elements of an array after its first bracket, up to the closing
    bracket; [pv] parses one value. *)
Fixpoint elements (pv : string -> option (value * string)) (fuel : nat) (s : string)
  : option (list value * string) :=
  match fuel with
  | O => None
  | S n =>
      match pv s with
      | None => None
      | Some (v, r) =>
          match skip_ws r with
          | String "," r' =>
              match elements pv n r' with
              | Some (vs, r'') => Some (v :: vs, r'')
              | None => None
              end
          | String "]" r' => Some ([v], r')
          | _ => None
          end
      end
  end.

(** The members of an object after its brace, up to the closing brace. *)
Fixpoint members (pv : string -> option (value * string)) (fuel : nat) (s : string)
  : option (list (string * value) * string) :=
  match fuel with
  | O => None
  | S n =>
      match skip_ws s with
      | String c r =>
          if Ascii.eqb c quote then
            match string_body r with
            | Some (key, r1) =>
                match skip_ws r1 with
                | String ":" r2 =>
                    match pv r2 with
                    | Some (v, r3) =>
                        match skip_ws r3 with
                        | String "," r4 =>
                            match members pv n r4 with
                            | Some (ms, r5) => Some ((key, v) :: ms, r5)
                            | None => None
                            end
                        | String "}" r4 => Some ([(key, v)], r4)
                        | _ => None
                        end
                    | None => None
                    end
                | _ => None
                end
            | None => None
            end
          else None
      | EmptyString => None
      end
  end.

Fixpoint parse_value (fuel : nat) (s : string) : option (value * string) :=
  match fuel with
  | O => None
  | S n =>
      match skip_ws s with
      | EmptyString => None
      | String c r =>
          if Ascii.eqb c "[" then
            match skip_ws r with
            | String "]" r' => Some (JArr [], r')
            | _ =>
                match elements (parse_value n) n r with
                | Some (l, r') => Some (JArr l, r')
                | None => None
                end
            end
          else if Ascii.eqb c "{" then
            match skip_ws r with
            | String "}" r' => Some (JObj [], r')
            | _ =>
                match members (parse_value n) n r with
                | Some (l, r') => Some (JObj l, r')
                | None => None
                end
            end
          else if Ascii.eqb c quote then
            match string_body r with
            | Some (t, r') => Some (JStr t, r')
            | None => None
            end
          else if Ascii.eqb c "n" then literal "null" JNull (String c r)
          else if Ascii.eqb c "t" then literal "true" (JBool true) (String c r)
          else if Ascii.eqb c "f" then literal "false" (JBool false) (String c r)
          else
            match number (String c r) with
            | Some (t, r') => Some (JNum t, r')
            | None => None
            end
      end
  end.

(** [JSON.parse]: one value, white space around it, nothing else. *)
Definition JSON_parse (s : string) : option value :=
  match parse_value (S (String.length s)) s with
  | Some (v, r) => if (skip_ws r =? "")%string then Some v else None
  | None => None
  end.

(** *** Tokens *)

(** A verifier that accepts one token: the one the login handed out and
    that has not expired. *)
Definition jwt_verify (issued : string) (t : string) : bool := (t =? issued)%string.

End Runtime.

(** ** Sample data *)

Module Sample.

(** A stored record with the given image fields and dates. *)
Definition stored (id : string) (images : option (list string)) (image : option legacy)
  (date createdAt : option string) : project :=
  Project.mk id (Some "Reef Survey") images image (Some "A survey.") date
    (Some ["Dr. A"; "Dr. B"]) (Some "Done.") (Some "") createdAt.

Definition day := Some "2024-01-01".
Definition stamp := Some "2024-01-01T08:00:00.000Z".

(** Legacy records: one path, an array of paths, an empty path. *)
Definition cover := stored "p1" None (Some (One "cover.jpg")) day stamp.
Definition gallery := stored "p2" None (Some (Many ["a.jpg"; "b.jpg"])) day stamp.
Definition blank := stored "p3" None (Some (One "")) day stamp.

(** Two records in the new form: one dated, one whose date is a word and
    that was created a year later. *)
Definition dated :=
  stored "a" (Some []) None (Some "2024-01-01") (Some "2024-01-01T08:00:00.000Z").
Definition undated :=
  stored "b" (Some []) None (Some "TBD") (Some "2025-01-01T00:00:00.000Z").

(** A form with the four required fields, two leaders and no image
    instruction. *)
Definition form : Body.t :=
  Body.mk (Some "Reef Survey") (Some "A survey.") (Some "2024-01-01")
    (Some ("Dr. A" ++ String "010" " Dr. B ")) (Some "Done.") None None None.

(** The same form without its title. *)
Definition untitled : Body.t :=
  Body.mk (Some "") (Some "A survey.") (Some "2024-01-01")
    None (Some "Done.") None None None.

Definition at_noon : clock := mkClock "id-7" "2024-03-01T12:00:00.000Z".

(** Requests: without a cookie, with a token nobody issued, with the token
    of the administrator. *)
Definition anonymous := mkRequest None "p1" form [].
Definition forged := mkRequest (Some "forged") "p1" form [].
Definition admin := mkRequest (Some "issued") "p1" form [].
Definition verify := Runtime.jwt_verify "issued".

(** Two create requests of the administrator. *)
Definition filled := mkRequest (Some "issued") "" form ["project-1-u.jpg"].
Definition hollow := mkRequest (Some "issued") "" untitled [].

(** The scenario of the specification: a record made with two files, then
    an update that removes the first image, uploads one file and makes that
    file the primary image. *)
Definition reef :=
  stored "p1" (Some [webPath "a.jpg"; webPath "b.jpg"]) None day stamp.

Definition swap : request :=
  mkRequest (Some "issued") "p1"
    (Body.mk None None None None None None
       (Some ("[" ++ Runtime.quoted (webPath "a.jpg") ++ "]"))
       (Some (webPath "n.jpg")))
    ["n.jpg"].


Definition on_disk (l : list project) : disk := mkDisk (Some l) [].

End Sample.

(** ** POST /auth/login and POST /auth/logout *)

Module Auth.

(** [const { email, password } = req.body || {}]. *)
Record credentials := mkCredentials {
  email : option string;
  password : option string
}.

(** [{ ok: true }] and [{ ok: false, message }]. *)
Inductive answer :=
| Ok
| Fail (message : string).

Record cookie := mkCookie {
  value : string;
  httpOnly : bool;
  sameSite : string;
  maxAge : Z
}.

(** What the response does to the [token] cookie. *)
Inductive jar :=
| Untouched
| Put (c : cookie)
| Cleared.

Record reply := mkReply {
  status : nat;
  sent : answer;
  cookies : jar
}.

(** [x === s] for a possibly absent body field. *)
Definition same (x : option string) (s : string) : bool :=
  match x with
  | Some t => (t =? s)%string
  | None => false
  end.

Section Login.

(** The configured administrator, and [jwt.sign] of the claim
    [{ role: "admin", email }] with the configured secret at the time of
    the call. *)
Variables ADMIN_EMAIL ADMIN_PASSWORD : string.
Variable jwt_sign : string -> string.

Definition login (c : credentials) : reply :=
  if same (email c) ADMIN_EMAIL && same (password c) ADMIN_PASSWORD then
    match email c with
    | Some e =>
        mkReply 200 Ok (Put (mkCookie (jwt_sign e) true "Lax" (2 * 60 * 60 * 1000)))
    | None => mkReply 401 (Fail "Invalid credentials") Untouched
    end
  else mkReply 401 (Fail "Invalid credentials") Untouched.

Definition logout : reply := mkReply 200 Ok Cleared.

End Login.

End Auth.

(** ** The gallery script of the detail page

    The script the page carries (the client-side gallery logic of the
    template): [images] is the image list of the record, the state is the
    index shown, the [src] of the main image and the row of dots, a dot
    being [true] when it has the class [active]. *)

Module Gallery.

Definition placeholder : string := "/assets/images/placeholder.png".

Record view := mkView {
  cur : Z;
  src : string;
  dots : list bool
}.

(** [s.replace(/^\/+/, '')]. *)
Fixpoint stripSlashes (s : string) : string :=
  match s with
  | String c r => if Ascii.eqb c "/" then stripSlashes r else s
  | EmptyString => EmptyString
  end.

(** [images[i]]. *)
Definition item (images : list string) (i : Z) : option string :=
  if i <? 0 then None else nth_error images (Z.to_nat i).

(** The buttons [images.forEach] appends, from index [k] on. *)
Fixpoint buttons (k : Z) (cur : Z) (images : list string) : list bool :=
  match images with
  | [] => []
  | _ :: r => (k =? cur) :: buttons (k + 1) cur r
  end.

Definition renderDots (images : list string) (cur : Z) : list bool :=
  if (List.length images <=? 1)%nat then [] else buttons 0 cur images.

Definition setImage (images : list string) (i : Z) : view :=
  mkView i
    (match item images i with
     | Some s => if JS.truthy s then "/" ++ stripSlashes s else placeholder
     | None => placeholder
     end)
    (renderDots images i).

Definition prevImage (images : list string) (v : view) : view :=
  if (List.length images =? 0)%nat then v
  else
    setImage images
      (Z.rem (cur v - 1 + Z.of_nat (List.length images)) (Z.of_nat (List.length images))).

Definition nextImage (images : list string) (v : view) : view :=
  if (List.length images =? 0)%nat then v
  else setImage images (Z.rem (cur v + 1) (Z.of_nat (List.length images))).

(** The page as the script leaves it once loaded. *)
Definition init (images : list string) : view :=
  match images with
  | [] => mkView 0 placeholder []
  | _ => setImage images 0
  end.

End Gallery.

(** ** Order-preserving selections *)

(** [subseq l m]: [l] is [m] with some elements left out, the others in the
    same order. *)
Inductive subseq {A : Type} : list A -> list A -> Prop :=
| subseq_nil : subseq [] []
| subseq_skip (x : A) (l m : list A) : subseq l m -> subseq l (x :: m)
| subseq_keep (x : A) (l m : list A) : subseq l m -> subseq (x :: l) (x :: m).

(** ** The images of a store *)

(** Every image path of every record a load gives, record after record. *)
Definition stored_images (d : disk) : list string :=
  concat (map Project.images_or_empty (readProjects d)).

(** ** More sample data *)

Module Store.

(** A store of three records in the new form and its disk. *)
Definition first := Sample.stored "a" (Some [webPath "a1.jpg"]) None Sample.day Sample.stamp.
Definition second :=
  Sample.stored "b" (Some [webPath "b1.jpg"; webPath "b2.jpg"; "old/b3.jpg"]) None
    (Some "2024-06-01") Sample.stamp.
Definition third := Sample.stored "c" (Some []) None None Sample.stamp.

Definition three : disk := mkDisk (Some [first; second; third]) [].

(** A disk whose document does not parse. *)
Definition unreadable : disk := mkDisk None [].

Definition with_id (i : string) (b : Body.t) (uploads : list string) : request :=
  mkRequest (Some "issued") i b uploads.

Definition no_change : Body.t := Body.mk None None None None None None None None.

(** An update of the title and the leaders alone, the title blanked. *)
Definition retitle : Body.t :=
  Body.mk (Some "") None None (Some (" Dr. C " ++ String "010" (String "010" "Dr. D")))
    None None None None.

(** An update that removes two images by name and uploads one file. *)
Definition prune : Body.t :=
  Body.mk None None None None None None (Some "b1.jpg, b3.jpg") None.

End Store.

(** ** Values that have a string form *)

(** ToString of a parsed value returns unless it meets an object with a
    member named [toString]: that member, not being a function, hides
    [Object.prototype.toString], and the conversion throws.  An array asks
    each of its elements. *)
Fixpoint stringable (v : value) : bool :=
  match v with
  | JObj fields => negb (existsb (fun kv => (fst kv =? "toString")%string) fields)
  | JArr l => forallb stringable l
  | _ => true
  end.

(** ** Sample data: dates and names *)

Module Timeline.

(** Five records with five keys: a date (older than its [createdAt] is
    not), no date, a later date, an empty date, and neither date nor
    [createdAt]. *)
Definition jan :=
  Sample.stored "jan" (Some []) None (Some "2024-01-01") (Some "2026-05-05T00:00:00.000Z").
Definition late :=
  Sample.stored "late" (Some []) None None (Some "2025-01-01T00:00:00.000Z").
Definition jun :=
  Sample.stored "jun" (Some []) None (Some "2024-06-01") (Some "2024-06-02T09:00:00.000Z").
Definition blank :=
  Sample.stored "blank" (Some []) None (Some "") (Some "2023-03-03T00:00:00.000Z").
Definition bare := Sample.stored "bare" (Some []) None None None.

Definition store : disk := mkDisk (Some [jan; late; jun; blank; bare]) [].

End Timeline.

Module Album.

(** A record whose first image has a name that begins with a digit, and an
    update that names that image as the primary one. *)
Definition numbered :=
  Sample.stored "n" (Some ["1.jpg"; "b.jpg"]) None Sample.day Sample.stamp.

Definition keep_first : request :=
  mkRequest (Some "issued") "n"
    (Body.mk None None None None None None None (Some "1.jpg")) [].

(** An update whose removal list is a JSON array of two names. *)
Definition drop_two : request :=
  mkRequest (Some "issued") "b"
    (Body.mk None None None None None None
       (Some ("[" ++ Runtime.quoted "b1.jpg" ++ "," ++ Runtime.quoted "b3.jpg" ++ "]"))
       None) [].

End Album.

(** * Properties *)

(** ** The primitives on examples *)

Example split_lines :
  JS.split "010" ("Dr. A" ++ String "010" "Dr. B") = ["Dr. A"; "Dr. B"].
Proof. reflexivity. Qed.

Example split_empty : JS.split "," "" = [""].
Proof. reflexivity. Qed.

Example trim_both : JS.trim "  a b  " = "a b".
Proof. reflexivity. Qed.

Example parseInt_prefix : JS.parseInt "2.jpg" = Some 2.
Proof. reflexivity. Qed.

Example parseInt_nan : JS.parseInt "project-1.jpg" = None.
Proof. reflexivity. Qed.

Example parseInt_neg : JS.parseInt " -12px" = Some (-12).
Proof. reflexivity. Qed.

Example endsWith_suffix : JS.endsWith "assets/images/projects/a.jpg" "a.jpg" = true.
Proof. reflexivity. Qed.

Example endsWith_longer : JS.endsWith "a.jpg" "assets/a.jpg" = false.
Proof. reflexivity. Qed.

Example date_only : Runtime.Date_parse "2024-01-01" = Some 1704067200000.
Proof. reflexivity. Qed.

Example date_iso : Runtime.Date_parse "2025-01-01T00:00:00.000Z" = Some 1735689600000.
Proof. reflexivity. Qed.

Example date_words : Runtime.Date_parse "TBD" = None.
Proof. reflexivity. Qed.

Example json_array :
  Runtime.JSON_parse ("[" ++ Runtime.quoted "a.jpg" ++ ", " ++ Runtime.quoted "b.png" ++ "]")
  = Some (JArr [JStr "a.jpg"; JStr "b.png"]).
Proof. reflexivity. Qed.

Example json_number : Runtime.JSON_parse "5" = Some (JNum "5").
Proof. reflexivity. Qed.

Example json_bare_words : Runtime.JSON_parse "a.jpg,b.png" = None.
Proof. reflexivity. Qed.

(** ** [findIndex] and [splice] *)

Section Lists.

Context {A : Type}.
Implicit Types (f : A -> bool) (l pre post : list A) (x : A).

Lemma findIndex_none f l :
  (forall y, In y l -> f y = false) -> JS.findIndex f l = -1.
Proof.
  induction l as [|x r IH]; simpl; intros H; [reflexivity|].
  rewrite (H x (or_introl eq_refl)), IH by (intros; apply H; now right).
  reflexivity.
Qed.

Lemma findIndex_first f pre x post :
  (forall y, In y pre -> f y = false) -> f x = true ->
  JS.findIndex f (pre ++ x :: post) = Z.of_nat (List.length pre).
Proof.
  induction pre as [|y r IH]; simpl; intros H Hx.
  - now rewrite Hx.
  - rewrite (H y (or_introl eq_refl)), IH by (auto; intros; apply H; now right).
    destruct (Z.eqb_spec (Z.of_nat (List.length r)) (-1)); lia.
Qed.

(** A found index points at the first element that satisfies the test. *)
Lemma findIndex_found f l i :
  JS.findIndex f l = i -> i <> -1 ->
  exists pre x post,
    l = (pre ++ x :: post)%list /\ (forall y, In y pre -> f y = false) /\
    f x = true /\ i = Z.of_nat (List.length pre).
Proof.
  revert i. induction l as [|x r IH]; simpl; intros i E N; [congruence|].
  destruct (f x) eqn:Fx.
  - exists [], x, r. subst i. repeat split; auto. intros y [].
  - destruct (Z.eqb_spec (JS.findIndex f r) (-1)) as [E1|E1]; [congruence|].
    destruct (IH _ eq_refl E1) as (pre & z & post & -> & Hpre & Hz & Hi).
    exists (x :: pre), z, post. repeat split; auto.
    + intros y [<-|Hy]; auto.
    + subst i. rewrite Hi. simpl List.length. lia.
Qed.

Lemma findIndex_absent f l :
  JS.findIndex f l = -1 -> forall y, In y l -> f y = false.
Proof.
  induction l as [|x r IH]; simpl; intros E y Hy; [contradiction|].
  destruct (f x) eqn:Fx; [discriminate|].
  destruct (Z.eqb_spec (JS.findIndex f r) (-1)) as [E1|E1].
  - destruct Hy as [<-|Hy]; auto.
  - destruct (findIndex_found f r _ eq_refl E1) as (pre & z & post & _ & _ & _ & Hi).
    lia.
Qed.

Lemma splice1_at pre x post :
  JS.splice1 (List.length pre) (pre ++ x :: post) = (Some x, (pre ++ post)%list).
Proof.
  unfold JS.splice1. f_equal.
  - rewrite nth_error_app2, Nat.sub_diag by lia. reflexivity.
  - induction pre as [|y r IH]; [reflexivity|].
    change ((y :: firstn (List.length r) (r ++ x :: post)
              ++ skipn (S (List.length r)) (r ++ x :: post))%list
            = (y :: r ++ post)%list).
    now rewrite IH.
Qed.

End Lists.

(** ** Loading the store *)

Lemma migrate_images (p : project) :
  exists l, Project.images (migrate p) = Some l.
Proof.
  unfold migrate. destruct (Project.image p) as [v|], (Project.images p) as [l|];
    try destruct (legacy_truthy v); simpl; eauto.
Qed.

Lemma migrate_keeps_images (p : project) (l : list string) :
  Project.images p = Some l -> migrate p = p.
Proof.
  destruct p as [i t im img s dt o r pu c]. simpl. intros ->.
  unfold migrate. simpl. destruct img; reflexivity.
Qed.

Lemma migrate_idempotent (p : project) : migrate (migrate p) = migrate p.
Proof.
  destruct (migrate_images p) as [l E]. exact (migrate_keeps_images _ _ E).
Qed.

Lemma readProjects_images (d : disk) (p : project) :
  In p (readProjects d) -> Project.images p = Some (Project.images_or_empty p).
Proof.
  unfold readProjects. destruct (projectsFile d); simpl; [|tauto].
  rewrite in_map_iff. intros (q & <- & _).
  destruct (migrate_images q) as [m E]. unfold Project.images_or_empty. now rewrite E.
Qed.

(** Reading back what was read changes nothing: the records are already in
    the new form. *)
Lemma readProjects_written (l : list project) (d : disk) :
  (forall p, In p l -> exists m, Project.images p = Some m) ->
  readProjects (writeProjects l d) = l.
Proof.
  unfold readProjects, writeProjects. simpl. intros H.
  induction l as [|p r IH]; simpl; [reflexivity|].
  destruct (H p (or_introl eq_refl)) as [m E].
  rewrite (migrate_keeps_images _ _ E), IH; auto.
  intros; apply H; now right.
Qed.

(** C4, as the specification states it, fails on a legacy field that holds
    an array: the record loaded has both paths in [images]. *)
Lemma legacy_array_is_not_wrapped :
  Project.image Sample.gallery = Some (Many ["a.jpg"; "b.jpg"]) /\
  Project.images Sample.gallery = None /\
  forall q, readProjects (Sample.on_disk [Sample.gallery]) = [q] ->
    Project.images q = Some ["a.jpg"; "b.jpg"] /\
    ~ (exists s, Project.images q = Some [s]).
Proof.
  split; [reflexivity|]. split; [reflexivity|].
  intros q E. injection E as <-. split; [reflexivity|].
  intros [s H]. discriminate H.
Qed.

(** The same on an empty legacy field: it stays, and [images] is empty. *)
Example legacy_blank_is_kept :
  readProjects (Sample.on_disk [Sample.blank])
  = [Project.set_images (Some []) Sample.blank].
Proof. reflexivity. Qed.

(** C4 (amended).  Loading a record that has no [images] field: a non-empty
    legacy [image] becomes the one-element [images] list and the field is
    dropped; a legacy array becomes [images] as it is; without a legacy
    field, or with an empty one, [images] is the empty list and [image] is
    left as it was. *)
Theorem legacy_image_normalised (d : disk) (data : list project) (i : nat) (p : project) :
  projectsFile d = Some data ->
  nth_error data i = Some p ->
  Project.images p = None ->
  exists q,
    nth_error (readProjects d) i = Some q /\
    Project.id q = Project.id p /\
    (forall s, Project.image p = Some (One s) -> s <> "" ->
       Project.images q = Some [s] /\ Project.image q = None) /\
    (forall l, Project.image p = Some (Many l) ->
       Project.images q = Some l /\ Project.image q = None) /\
    (Project.image p = None \/ Project.image p = Some (One "") ->
       Project.images q = Some [] /\ Project.image q = Project.image p).
Proof.
  intros Hd Hi Him. exists (migrate p).
  unfold readProjects. rewrite Hd, nth_error_map, Hi. split; [reflexivity|].
  destruct p as [pid t im img s dt o r pu c]. simpl in *. subst im.
  split; [|split; [|split]].
  - unfold migrate; simpl. destruct img as [[s0|l0]|]; simpl; try reflexivity.
    destruct (JS.truthy s0); reflexivity.
  - intros s0 -> N. unfold migrate; simpl.
    replace (JS.truthy s0) with true; [split; reflexivity|].
    unfold JS.truthy. now destruct (String.eqb_spec s0 "").
  - intros l0 ->. split; reflexivity.
  - intros [->| ->]; split; reflexivity.
Qed.

Lemma legacy_image_normalised_witness :
  exists q,
    nth_error (readProjects (Sample.on_disk [Sample.cover])) 0 = Some q /\
    Project.images q = Some ["cover.jpg"] /\ Project.image q = None.
Proof.
  destruct (legacy_image_normalised (Sample.on_disk [Sample.cover])
              [Sample.cover] 0 Sample.cover eq_refl eq_refl eq_refl)
    as (q & Hq & _ & Hone & _).
  exists q. split; [exact Hq|].
  apply (Hone "cover.jpg" eq_refl). discriminate.
Defined.

(** ** Sorting *)

Section Sorting.

Context {A : Type} (cmp : A -> A -> Z).

Lemma insert_perm (x : A) (l : list A) : Permutation (x :: l) (insert cmp x l).
Proof.
  induction l as [|y r IH]; simpl; [apply Permutation_refl|].
  destruct (cmp x y <=? 0); [apply Permutation_refl|].
  eapply perm_trans; [apply perm_swap|]. now apply perm_skip.
Qed.

Lemma sort_perm (l : list A) : Permutation l (sort cmp l).
Proof.
  induction l as [|x r IH]; simpl; [constructor|].
  eapply perm_trans; [apply perm_skip, IH|]. apply insert_perm.
Qed.

Lemma sort_In (l : list A) (x : A) : In x (sort cmp l) <-> In x l.
Proof.
  split; apply Permutation_in; [apply Permutation_sym|]; apply sort_perm.
Qed.

(** From here on the comparator is the difference of a key, on the elements
    at hand. *)
Variable key : A -> Z.

Lemma insert_sorted (x : A) (l : list A) :
  by_key cmp key (x :: l) -> StronglySorted (ge_key key) l -> StronglySorted (ge_key key) (insert cmp x l).
Proof.
  intros K S. induction S as [|y r S IH Hy]; simpl.
  - repeat constructor.
  - assert (E : cmp x y = key y - key x) by (apply K; simpl; auto).
    destruct (Z.leb_spec (cmp x y) 0) as [L|L].
    + constructor; [now constructor|].
      constructor; [unfold ge_key; lia|].
      rewrite Forall_forall in *. intros z Hz. specialize (Hy z Hz).
      unfold ge_key in *. lia.
    + constructor.
      * apply IH. intros a b Ha Hb. apply K; simpl in *; tauto.
      * rewrite Forall_forall in *. intros z Hz.
        apply (Permutation_in _ (Permutation_sym (insert_perm x r))) in Hz.
        destruct Hz as [<-|Hz]; [unfold ge_key; lia|now apply Hy].
Qed.

Lemma sort_sorted (l : list A) : by_key cmp key l -> StronglySorted (ge_key key) (sort cmp l).
Proof.
  induction l as [|x r IH]; simpl; intros K; [constructor|].
  assert (Kr : by_key cmp key r) by (intros a b Ha Hb; apply K; simpl; auto).
  apply insert_sorted; [|now apply IH].
  intros a b Ha Hb. apply K; simpl in *; rewrite sort_In in *; tauto.
Qed.

(** Stability: the elements of one key come out in the order they went in. *)
Lemma insert_stable (k : Z) (x : A) (l : list A) :
  by_key cmp key (x :: l) ->
  filter (fun a => key a =? k) (insert cmp x l)
  = filter (fun a => key a =? k) (x :: l).
Proof.
  induction l as [|y r IH]; intros K; [reflexivity|].
  assert (E : cmp x y = key y - key x) by (apply K; simpl; auto).
  cbn [insert]. destruct (Z.leb_spec (cmp x y) 0) as [L|L]; [reflexivity|].
  cbn [filter] in *. rewrite IH by (intros a b Ha Hb; apply K; simpl in *; tauto).
  destruct (Z.eqb_spec (key x) k), (Z.eqb_spec (key y) k); try reflexivity; lia.
Qed.

Lemma sort_stable (k : Z) (l : list A) :
  by_key cmp key l ->
  filter (fun a => key a =? k) (sort cmp l) = filter (fun a => key a =? k) l.
Proof.
  induction l as [|x r IH]; intros K; [reflexivity|].
  assert (Kr : by_key cmp key r) by (intros a b Ha Hb; apply K; simpl; auto).
  cbn [sort]. rewrite insert_stable.
  - cbn [filter]. now rewrite IH.
  - intros a b Ha Hb. apply K; simpl in *; rewrite sort_In in *; tauto.
Qed.

End Sorting.

(** ** GET /api/projects *)

Section Listing.

Variable Date_parse : string -> option Z.

Local Notation "'time'" := (time_of Date_parse).

Lemma time_of_date (p : project) (s : string) :
  Project.date p = Some s -> s <> "" -> time p = Date_parse s.
Proof.
  intros E N. unfold time_of, falsy, JS.truthy. rewrite E.
  now destruct (String.eqb_spec s "").
Qed.

Lemma time_of_createdAt (p : project) (s : string) :
  Project.date p = None \/ Project.date p = Some "" ->
  Project.createdAt p = Some s -> s <> "" -> time p = Date_parse s.
Proof.
  intros D E N. unfold time_of, falsy, JS.truthy. rewrite E.
  destruct D as [-> | ->]; simpl; now destruct (String.eqb_spec s "").
Qed.

Lemma time_of_epoch (p : project) :
  Project.date p = None \/ Project.date p = Some "" ->
  Project.createdAt p = None \/ Project.createdAt p = Some "" ->
  time p = Some 0.
Proof.
  intros D C. unfold time_of, falsy.
  destruct D as [-> | ->], C as [-> | ->]; reflexivity.
Qed.

Lemma newest_first_by_key (l : list project) :
  (forall p, In p l -> time p <> None) ->
  by_key (newest_first Date_parse) (millis time) l.
Proof.
  intros H a b Ha Hb. unfold newest_first, millis.
  destruct (time a) eqn:Ea; [|now apply H in Ha].
  destruct (time b) eqn:Eb; [|now apply H in Hb].
  reflexivity.
Qed.

Lemma sorted_descending (l : list project) :
  StronglySorted (ge_key (millis time)) l -> descending time l.
Proof.
  unfold descending. induction 1 as [|a r S IH Ha]; constructor; auto.
  rewrite Forall_forall in *. intros b Hb x y Ex Ey.
  specialize (Ha b Hb). unfold ge_key, millis in Ha. now rewrite Ex, Ey in Ha.
Qed.

Lemma keyed_millis (l : list project) (k : Z) :
  (forall p, In p l -> time p <> None) ->
  filter (keyed time k) l = filter (fun p => millis time p =? k) l.
Proof.
  intros H. apply filter_ext_in. intros p Hp. unfold keyed, millis.
  destruct (time p) eqn:E; [reflexivity|]. now apply H in Hp.
Qed.

End Listing.

(** C1, as the specification states it, fails on a date that does not
    parse: the key of such a record is NaN, not its [createdAt], and the
    record stays behind an older one. *)
Lemma unparsable_date_does_not_fall_back :
  spec_time_of Runtime.Date_parse Sample.dated = Some 1704067200000 /\
  spec_time_of Runtime.Date_parse Sample.undated = Some 1735689600000 /\
  listProjects Runtime.Date_parse (Sample.on_disk [Sample.dated; Sample.undated])
  = (mkResponse 200 (Records [Sample.dated; Sample.undated]),
     Sample.on_disk [Sample.dated; Sample.undated]) /\
  ~ descending (spec_time_of Runtime.Date_parse) [Sample.dated; Sample.undated].
Proof.
  split; [reflexivity|]. split; [reflexivity|]. split; [reflexivity|].
  intros S. inversion S as [|a r _ F]; subst.
  inversion F as [|b r' H _]; subst.
  specialize (H 1704067200000 1735689600000 eq_refl eq_refl). lia.
Qed.

(** C1 (amended).  When the key of every stored record is a time (its
    [date], or its [createdAt] when the [date] is absent or empty, or the
    epoch when both are), the list operation answers 200 with all the
    records, newest first by that key. *)
Theorem list_newest_first (Date_parse : string -> option Z) (d : disk) :
  (forall p, In p (readProjects d) -> time_of Date_parse p <> None) ->
  exists out,
    listProjects Date_parse d = (mkResponse 200 (Records out), d) /\
    Permutation (readProjects d) out /\
    descending (time_of Date_parse) out /\
    (forall p s, Project.date p = Some s -> s <> "" ->
       time_of Date_parse p = Date_parse s) /\
    (forall p s, Project.date p = None \/ Project.date p = Some "" ->
       Project.createdAt p = Some s -> s <> "" ->
       time_of Date_parse p = Date_parse s) /\
    (forall p, Project.date p = None \/ Project.date p = Some "" ->
       Project.createdAt p = None \/ Project.createdAt p = Some "" ->
       time_of Date_parse p = Some 0).
Proof.
  intros H. exists (sort (newest_first Date_parse) (readProjects d)).
  pose proof (newest_first_by_key Date_parse _ H) as K.
  split; [reflexivity|]. split; [apply sort_perm|].
  split; [apply sorted_descending, sort_sorted, K|].
  split; [apply time_of_date|].
  split; [apply time_of_createdAt | apply time_of_epoch].
Qed.

(** Under the same condition the records of one key come out in the order
    they are stored in: the sort is stable. *)
Lemma list_keeps_ties (Date_parse : string -> option Z) (d : disk) (k : Z) :
  (forall p, In p (readProjects d) -> time_of Date_parse p <> None) ->
  filter (keyed (time_of Date_parse) k) (sort (newest_first Date_parse) (readProjects d))
  = filter (keyed (time_of Date_parse) k) (readProjects d).
Proof.
  intros H. pose proof (newest_first_by_key Date_parse _ H) as K.
  rewrite !keyed_millis; auto.
  - now apply sort_stable.
  - intros p Hp. apply H. now apply sort_In in Hp.
Qed.

Lemma list_newest_first_witness :
  exists out,
    listProjects Runtime.Date_parse Timeline.store
    = (mkResponse 200 (Records out), Timeline.store) /\
    out = [Timeline.late; Timeline.jun; Timeline.jan; Timeline.blank; Timeline.bare] /\
    map (time_of Runtime.Date_parse) out
    = [Some 1735689600000; Some 1717200000000; Some 1704067200000;
       Some 1677801600000; Some 0] /\
    descending (time_of Runtime.Date_parse) out /\
    time_of Runtime.Date_parse Timeline.jan = Runtime.Date_parse "2024-01-01" /\
    time_of Runtime.Date_parse Timeline.late
    = Runtime.Date_parse "2025-01-01T00:00:00.000Z" /\
    time_of Runtime.Date_parse Timeline.blank
    = Runtime.Date_parse "2023-03-03T00:00:00.000Z" /\
    time_of Runtime.Date_parse Timeline.bare = Some 0.
Proof.
  destruct (list_newest_first Runtime.Date_parse Timeline.store)
    as (out & E & _ & S & Hdate & Hcreated & Hepoch).
  - simpl. intros p [<-|[<-|[<-|[<-|[<-|[]]]]]]; discriminate.
  - exists out. split; [exact E|].
    assert (O : out = [Timeline.late; Timeline.jun; Timeline.jan;
                       Timeline.blank; Timeline.bare])
      by (injection E as <-; reflexivity).
    split; [exact O|]. split; [rewrite O; reflexivity|]. split; [exact S|].
    split; [apply Hdate; [reflexivity|discriminate]|].
    split; [apply Hcreated; [now left|reflexivity|discriminate]|].
    split; [apply Hcreated; [now right|reflexivity|discriminate]|].
    apply Hepoch; now left.
Defined.

(** ** The authentication gate *)

Lemma falsy_spec (x : option string) :
  falsy x = true <-> x = None \/ x = Some "".
Proof.
  unfold falsy, JS.truthy. destruct x as [s|]; [|intuition].
  destruct (String.eqb_spec s ""); simpl; split; intros H; subst; auto;
    try discriminate.
  destruct H as [H|H]; [discriminate|]. injection H as ->. contradiction.
Qed.

Lemma truthy_spec (s : string) : JS.truthy s = true <-> s <> "".
Proof.
  unfold JS.truthy. destruct (String.eqb_spec s ""); simpl; split; intros H;
    congruence.
Qed.

Lemma falsy_some (s : string) : s <> "" -> falsy (Some s) = false.
Proof.
  intros N. simpl. apply truthy_spec in N. now rewrite N.
Qed.

(** C3.  On each mutating route, a request without the cookie, with an
    empty token or with a token that does not verify is answered 401 and the
    disk is left as it was; with a token that verifies, the route does what
    its handler does. *)
Theorem mutation_needs_session
  (JSON_parse : string -> option value) (jwt_verify : string -> bool)
  (e : endpoint) (req : request) (d : disk) :
  (token req = None \/
   (exists t, token req = Some t /\ (t = "" \/ jwt_verify t = false)) ->
   route JSON_parse jwt_verify e req d = (mkResponse 401 (Message "Unauthorized"), d)) /\
  (forall t, token req = Some t -> t <> "" -> jwt_verify t = true ->
   route JSON_parse jwt_verify e req d = endpoint_handler JSON_parse e req d).
Proof.
  unfold route, requireAuth. split.
  - intros [-> | (t & -> & [-> | V])]; [reflexivity..|].
    destruct (falsy (Some t)); [reflexivity|]. now rewrite V.
  - intros t -> N V. now rewrite (falsy_some _ N), V.
Qed.

Lemma mutation_needs_session_witness :
  route Runtime.JSON_parse Sample.verify DeleteProject Sample.anonymous
    (Sample.on_disk [Sample.cover])
  = (Unauthorized, Sample.on_disk [Sample.cover]) /\
  route Runtime.JSON_parse Sample.verify PutProject Sample.forged
    (Sample.on_disk [Sample.cover])
  = (Unauthorized, Sample.on_disk [Sample.cover]) /\
  route Runtime.JSON_parse Sample.verify DeleteProject Sample.admin
    (Sample.on_disk [Sample.cover])
  = deleteProject Sample.admin (Sample.on_disk [Sample.cover]).
Proof.
  split; [|split].
  - apply (mutation_needs_session Runtime.JSON_parse Sample.verify DeleteProject
             Sample.anonymous).
    now left.
  - apply (mutation_needs_session Runtime.JSON_parse Sample.verify PutProject
             Sample.forged).
    right. exists "forged". split; [reflexivity|]. now right.
  - apply (mutation_needs_session Runtime.JSON_parse Sample.verify DeleteProject
             Sample.admin) with (t := "issued");
      [reflexivity|discriminate|reflexivity].
Defined.

(** ** POST /api/projects *)

(** C7.  The create handler answers 400 with a message and leaves the disk
    as it was when one of [title], [summary], [date], [results] is missing
    or empty; when the four are present and non-empty it answers 200 with
    the record it made, which is then the last record of the store. *)
Theorem create_validates (c : clock) (req : request) (d : disk) :
  ((exists f, In f [Body.title (body req); Body.summary (body req);
                    Body.date (body req); Body.results (body req)] /\
              (f = None \/ f = Some "")) ->
   createProject c req d = (mkResponse 400 (Message "Missing required fields"), d)) /\
  (forall t s dt r,
     Body.title (body req) = Some t -> Body.summary (body req) = Some s ->
     Body.date (body req) = Some dt -> Body.results (body req) = Some r ->
     t <> "" -> s <> "" -> dt <> "" -> r <> "" ->
     exists item,
       createProject c req d
       = (mkResponse 200 (OkProject item), writeProjects (readProjects d ++ [item]) d) /\
       Project.id item = uuid c /\
       Project.title item = Some t /\ Project.summary item = Some s /\
       Project.date item = Some dt /\ Project.results item = Some r /\
       Project.images item = Some (map webPath (files req)) /\
       Project.createdAt item = Some (now c) /\
       readProjects (snd (createProject c req d)) = (readProjects d ++ [item])%list).
Proof.
  unfold createProject. split.
  - intros (f & Hin & Hf). apply falsy_spec in Hf.
    simpl in Hin. destruct Hin as [<-|[<-|[<-|[<-|[]]]]]; rewrite Hf;
      rewrite ?orb_true_r; reflexivity.
  - intros t s dt r -> -> -> -> Nt Ns Nd Nr.
    rewrite !falsy_some by assumption. simpl orb. cbv iota.
    eexists. split; [reflexivity|]. repeat (split; [reflexivity|]).
    simpl snd. apply readProjects_written.
    intros p Hp. apply in_app_or in Hp. destruct Hp as [Hp|[<-|[]]].
    + rewrite (readProjects_images _ _ Hp). eauto.
    + simpl. eauto.
Qed.

Lemma create_validates_witness :
  createProject Sample.at_noon Sample.hollow (Sample.on_disk [Sample.dated])
  = (mkResponse 400 (Message "Missing required fields"),
     Sample.on_disk [Sample.dated]) /\
  exists item,
    fst (createProject Sample.at_noon Sample.filled (Sample.on_disk [Sample.dated]))
    = mkResponse 200 (OkProject item) /\
    Project.images item = Some ["assets/images/projects/project-1-u.jpg"] /\
    Project.outcomes item = Some ["Dr. A"; "Dr. B"] /\
    readProjects
      (snd (createProject Sample.at_noon Sample.filled (Sample.on_disk [Sample.dated])))
    = [Sample.dated; item].
Proof.
  destruct (create_validates Sample.at_noon Sample.hollow
              (Sample.on_disk [Sample.dated])) as [Bad _].
  destruct (create_validates Sample.at_noon Sample.filled
              (Sample.on_disk [Sample.dated])) as [_ Good].
  split; [apply Bad; exists (Some ""); split; [now left | now right]|].
  destruct (Good "Reef Survey" "A survey." "2024-01-01" "Done."
              eq_refl eq_refl eq_refl eq_refl)
    as (item & E & _ & _ & _ & _ & _ & Im & _ & R); try discriminate.
  exists item. rewrite R, E. split; [reflexivity|]. split; [exact Im|].
  injection E as <-. split; reflexivity.
Defined.

(** ** PUT /api/projects/:id: the handler around the image steps *)

Lemma store_at_middle (pre post : list project) (p0 p : project) :
  store_at (List.length pre) p (pre ++ p0 :: post) = (pre ++ p :: post)%list.
Proof. induction pre as [|q r IH]; simpl; [reflexivity|]. now rewrite IH. Qed.

Lemma has_id_false (i : string) (q : project) :
  Project.id q <> i -> has_id i q = false.
Proof. intros N. unfold has_id. now apply String.eqb_neq. Qed.

Lemma has_id_true (i : string) (q : project) :
  Project.id q = i -> has_id i q = true.
Proof. intros <-. apply String.eqb_refl. Qed.

Section Update.

Variable JSON_parse : string -> option value.

(** The image list the handler writes back: the three steps composed. *)
Lemma edit_images (req : request) (p0 : project) :
  Project.images (fst (edit JSON_parse req p0))
  = Some (primaryStep (Body.makePrimary (body req))
            (appendStep (files req)
               (fst (removeStep JSON_parse (Body.removeImages (body req))
                       (Project.images_or_empty p0))))).
Proof.
  unfold edit, appendStep. cbn [fst Project.set_images Project.images].
  replace (Project.images_or_empty (assign _ _ (assign _ _ (assign _ _
             (assign _ _ (assign _ _ (assign _ _ p0)))))))
    with (Project.images_or_empty p0)
    by (destruct (body req) as [[?|] [?|] [?|] [?|] [?|] [?|] ? ?]; reflexivity).
  destruct (files req); [now rewrite app_nil_r | reflexivity].
Qed.

(** The handler on a store that holds the record: it always answers 200
    with the edited record and writes it back in place. *)
Lemma updateProject_found (req : request) (d : disk) (pre post : list project)
  (p0 : project) :
  readProjects d = (pre ++ p0 :: post)%list ->
  (forall q, In q pre -> Project.id q <> params_id req) ->
  Project.id p0 = params_id req ->
  updateProject JSON_parse req d
  = (mkResponse 200 (OkProject (fst (edit JSON_parse req p0))),
     writeProjects (pre ++ fst (edit JSON_parse req p0) :: post)
       (unlink (snd (edit JSON_parse req p0)) d)).
Proof.
  intros E Hpre Hp. unfold updateProject. rewrite E.
  rewrite (findIndex_first (has_id (params_id req)) pre p0 post)
    by (auto using has_id_false, has_id_true).
  destruct (Z.eqb_spec (Z.of_nat (List.length pre)) (-1)); [lia|].
  rewrite Nat2Z.id, nth_error_app2, Nat.sub_diag by lia. cbn [nth_error].
  destruct (edit JSON_parse req p0) as [p gone]. cbn [fst snd].
  now rewrite store_at_middle.
Qed.

(** *** Removal *)

Lemma removeOne_match (rem : value) (pre : list string) (x : string)
  (post gone : list string) :
  (forall y, In y pre -> matches rem y = false) -> matches rem x = true ->
  removeOne ((pre ++ x :: post)%list, gone) rem = ((pre ++ post)%list, (gone ++ [x])%list).
Proof.
  intros Hpre Hx. unfold removeOne. cbn [fst snd].
  rewrite (findIndex_first (matches rem) pre x post Hpre Hx).
  destruct (Z.eqb_spec (Z.of_nat (List.length pre)) (-1)); [lia|]. cbn [negb].
  now rewrite Nat2Z.id, splice1_at.
Qed.

Lemma removeOne_miss (rem : value) (imgs gone : list string) :
  (forall y, In y imgs -> matches rem y = false) ->
  removeOne (imgs, gone) rem = (imgs, gone).
Proof.
  intros H. unfold removeOne. cbn [fst]. now rewrite (findIndex_none _ _ H).
Qed.

(** The two cases are all there is: a turn either finds a first match and
    removes it, or finds none and changes nothing. *)
Lemma removeOne_cases (rem : value) (imgs gone : list string) :
  (exists pre x post,
     imgs = (pre ++ x :: post)%list /\
     (forall y, In y pre -> matches rem y = false) /\ matches rem x = true /\
     removeOne (imgs, gone) rem = ((pre ++ post)%list, (gone ++ [x])%list)) \/
  ((forall y, In y imgs -> matches rem y = false) /\
   removeOne (imgs, gone) rem = (imgs, gone)).
Proof.
  destruct (Z.eq_dec (JS.findIndex (matches rem) imgs) (-1)) as [E|N].
  - right. pose proof (findIndex_absent _ _ E) as H.
    split; [exact H | now apply removeOne_miss].
  - left. destruct (findIndex_found _ _ _ eq_refl N)
      as (pre & x & post & -> & Hpre & Hx & _).
    exists pre, x, post. repeat split; auto. now apply removeOne_match.
Qed.




End Update.



(** ** The primary image *)

Lemma substring_all (s : string) : substring 0 (String.length s) s = s.
Proof. induction s as [|c r IH]; simpl; [reflexivity|]. now rewrite IH. Qed.

Lemma endsWith_refl (s : string) : JS.endsWith s s = true.
Proof.
  unfold JS.endsWith. rewrite Nat.leb_refl, Nat.sub_diag, substring_all.
  apply String.eqb_refl.
Qed.

(** The test of the search by name is the suffix test: equal strings end
    with each other. *)
Lemma by_name_endsWith (mp img : string) :
  (img =? mp)%string || JS.endsWith img mp = JS.endsWith img mp.
Proof.
  destruct (String.eqb_spec img mp) as [->|]; [|reflexivity].
  now rewrite endsWith_refl.
Qed.

Lemma parseInt_webPath (f : string) : JS.parseInt (webPath f) = None.
Proof. reflexivity. Qed.

Lemma targetIndex_by_name (mp : string) (imgs : list string) :
  (forall i, JS.parseInt mp = Some i -> i < 0 \/ Z.of_nat (List.length imgs) <= i) ->
  targetIndex mp imgs = JS.findIndex (fun img => JS.endsWith img mp) imgs.
Proof.
  intros H. unfold targetIndex.
  assert (E : JS.findIndex (fun img => (img =? mp)%string || JS.endsWith img mp) imgs
              = JS.findIndex (fun img => JS.endsWith img mp) imgs).
  { clear H. induction imgs as [|x r IH]; simpl; [reflexivity|].
    now rewrite by_name_endsWith, IH. }
  rewrite E. destruct (JS.parseInt mp) as [i|]; [|reflexivity].
  destruct (H i eq_refl).
  - destruct (Z.geb_spec i 0); [lia|reflexivity].
  - destruct (Z.ltb_spec i (Z.of_nat (List.length imgs))); [lia|].
    now rewrite andb_false_r.
Qed.

Lemma targetIndex_by_index (mp : string) (imgs : list string) (i : Z) :
  JS.parseInt mp = Some i -> 0 <= i < Z.of_nat (List.length imgs) ->
  targetIndex mp imgs = i.
Proof.
  intros E R. unfold targetIndex. rewrite E.
  destruct (Z.geb_spec i 0); [|lia].
  destruct (Z.ltb_spec i (Z.of_nat (List.length imgs))); [reflexivity|lia].
Qed.

(** Where the step moves an image: the one at the target index goes first,
    the others keep their order. *)
Lemma primaryStep_moves (mp : string) (pre post : list string) (x : string) :
  mp <> "" ->
  targetIndex mp (pre ++ x :: post) = Z.of_nat (List.length pre) ->
  primaryStep (Some mp) (pre ++ x :: post) = (x :: pre ++ post)%list.
Proof.
  intros N E. unfold primaryStep. rewrite (falsy_some _ N), E.
  destruct pre as [|y r]; [reflexivity|].
  destruct (Z.gtb_spec (Z.of_nat (List.length (y :: r))) 0);
    [|simpl List.length in *; lia].
  now rewrite Nat2Z.id, splice1_at.
Qed.

Lemma primaryStep_stays (mp : string) (imgs : list string) :
  targetIndex mp imgs <= 0 -> primaryStep (Some mp) imgs = imgs.
Proof.
  intros H. unfold primaryStep. destruct (falsy (Some mp)); [reflexivity|].
  destruct (Z.gtb_spec (targetIndex mp imgs) 0); [lia|reflexivity].
Qed.

(** C8, as the specification states it, fails on a first image whose name
    begins with digits that are an index in range: [makePrimary] set to the
    name of that image is read as the index, and another image goes
    first. *)
Lemma first_image_named_like_an_index :
  Project.images Album.numbered = Some ["1.jpg"; "b.jpg"] /\
  Body.makePrimary (body Album.keep_first) = Some "1.jpg" /\
  primaryStep (Some "1.jpg") ["1.jpg"; "b.jpg"] = ["b.jpg"; "1.jpg"] /\
  Project.images (fst (edit Runtime.JSON_parse Album.keep_first Album.numbered))
  = Some ["b.jpg"; "1.jpg"] /\
  ~ (forall mp x r, primaryStep (Some mp) (x :: r) = x :: r \/ x <> mp).
Proof.
  split; [reflexivity|]. split; [reflexivity|]. split; [reflexivity|].
  split; [reflexivity|].
  intros H. destruct (H "1.jpg" "1.jpg" ["b.jpg"]) as [E|N];
    [discriminate E | now apply N].
Qed.

(** C8 (amended).  When [makePrimary] resolves to index 0 or to no image, the
    make-primary step returns the images as they are, and an update that
    carries nothing else about images writes the record back with the same
    [images].  The value resolves to 0 when it is the index 0 of a non-empty
    list, or when it is not an index in range and the first image equals it
    or ends with it; it resolves to no image when it is not an index in
    range and no image equals it or ends with it. *)
Theorem make_primary_noop
  (JSON_parse : string -> option value) (mp : string) (imgs : list string) :
  (targetIndex mp imgs = 0 \/ targetIndex mp imgs = -1 ->
   primaryStep (Some mp) imgs = imgs /\
   forall req p0,
     Body.makePrimary (body req) = Some mp ->
     Body.removeImages (body req) = None -> files req = [] ->
     Project.images p0 = Some imgs ->
     Project.images (fst (edit JSON_parse req p0)) = Some imgs) /\
  (imgs <> [] -> JS.parseInt mp = Some 0 -> targetIndex mp imgs = 0) /\
  (forall x r, imgs = x :: r ->
     (forall i, JS.parseInt mp = Some i -> i < 0 \/ Z.of_nat (List.length imgs) <= i) ->
     x = mp \/ JS.endsWith x mp = true -> targetIndex mp imgs = 0) /\
  ((forall i, JS.parseInt mp = Some i -> i < 0 \/ Z.of_nat (List.length imgs) <= i) ->
   (forall y, In y imgs -> y <> mp /\ JS.endsWith y mp = false) ->
   targetIndex mp imgs = -1).
Proof.
  split; [|split; [|split]].
  - intros H. assert (S : primaryStep (Some mp) imgs = imgs)
      by (apply primaryStep_stays; lia).
    split; [exact S|]. intros req p0 Emp Erm Ef Ei.
    rewrite edit_images, Emp, Erm, Ef. unfold Project.images_or_empty.
    rewrite Ei. cbn [removeStep falsy fst]. unfold appendStep. cbn [map].
    now rewrite app_nil_r, S.
  - intros N E. apply targetIndex_by_index; [exact E|].
    destruct imgs; [contradiction|]. simpl List.length. lia.
  - intros x r -> E Hx. rewrite targetIndex_by_name by exact E.
    simpl. destruct Hx as [-> | ->]; [now rewrite endsWith_refl | reflexivity].
  - intros Hi Hn. rewrite targetIndex_by_name by exact Hi.
    apply findIndex_none. intros y Hy. now apply Hn.
Qed.

Lemma make_primary_noop_witness :
  primaryStep (Some "a.jpg") [webPath "a.jpg"; webPath "b.jpg"]
  = [webPath "a.jpg"; webPath "b.jpg"] /\
  primaryStep (Some "zzz.png") [webPath "a.jpg"; webPath "b.jpg"]
  = [webPath "a.jpg"; webPath "b.jpg"] /\
  targetIndex "0" ["1.jpg"; "b.jpg"] = 0 /\
  targetIndex "a.jpg" [webPath "a.jpg"; webPath "b.jpg"] = 0 /\
  targetIndex "zzz.png" [webPath "a.jpg"; webPath "b.jpg"] = -1 /\
  Project.images
    (fst (edit Runtime.JSON_parse
            (mkRequest (Some "issued") "n"
               (Body.mk None None None None None None None (Some "0")) [])
            Album.numbered))
  = Some ["1.jpg"; "b.jpg"].
Proof.
  split; [|split; [|split; [|split; [|split]]]].
  - apply (make_primary_noop Runtime.JSON_parse "a.jpg"
             [webPath "a.jpg"; webPath "b.jpg"]).
    left. reflexivity.
  - apply (make_primary_noop Runtime.JSON_parse "zzz.png"
             [webPath "a.jpg"; webPath "b.jpg"]).
    right. reflexivity.
  - apply (make_primary_noop Runtime.JSON_parse "0" ["1.jpg"; "b.jpg"]);
      [discriminate | reflexivity].
  - destruct (make_primary_noop Runtime.JSON_parse "a.jpg"
                [webPath "a.jpg"; webPath "b.jpg"]) as (_ & _ & Name & _).
    apply (Name (webPath "a.jpg") [webPath "b.jpg"] eq_refl).
    + intros i Hi. discriminate Hi.
    + right. reflexivity.
  - destruct (make_primary_noop Runtime.JSON_parse "zzz.png"
                [webPath "a.jpg"; webPath "b.jpg"]) as (_ & _ & _ & None_).
    apply None_.
    + intros i Hi. discriminate Hi.
    + intros y [<-|[<-|[]]]; split; (discriminate || reflexivity).
  - destruct (make_primary_noop Runtime.JSON_parse "0" ["1.jpg"; "b.jpg"])
      as (Stay & _).
    destruct Stay as [_ Update]; [left; reflexivity|].
    apply Update; reflexivity.
Defined.

(** C9.  A [makePrimary] whose decimal prefix is an index in range is that
    index, whatever the images are called: the image at that index goes
    first. *)
Theorem digits_are_an_index (mp : string) (imgs : list string) (i : Z) :
  JS.parseInt mp = Some i -> 0 <= i < Z.of_nat (List.length imgs) ->
  targetIndex mp imgs = i /\
  (forall others, List.length others = List.length imgs -> targetIndex mp others = i) /\
  exists pre x post,
    imgs = (pre ++ x :: post)%list /\ Z.of_nat (List.length pre) = i /\
    primaryStep (Some mp) imgs = (x :: pre ++ post)%list.
Proof.
  intros E R. split; [now apply targetIndex_by_index|]. split.
  - intros others L. apply targetIndex_by_index; [exact E|]. now rewrite L.
  - destruct (nth_error imgs (Z.to_nat i)) as [x|] eqn:Hx.
    + destruct (nth_error_split _ _ Hx) as (pre & post & -> & Hl).
      exists pre, x, post. split; [reflexivity|]. split; [lia|].
      apply primaryStep_moves.
      * intros ->. discriminate.
      * rewrite (targetIndex_by_index _ _ _ E R). lia.
    + apply nth_error_None in Hx. lia.
Qed.

Lemma digits_are_an_index_witness :
  targetIndex "2.jpg" ["2.jpg"; "b.jpg"; "c.jpg"] = 2 /\
  primaryStep (Some "2.jpg") ["2.jpg"; "b.jpg"; "c.jpg"] = ["c.jpg"; "2.jpg"; "b.jpg"].
Proof.
  destruct (digits_are_an_index "2.jpg" ["2.jpg"; "b.jpg"; "c.jpg"] 2 eq_refl)
    as (T & _ & pre & x & post & E & L & P).
  - simpl. lia.
  - split; [exact T|]. rewrite P.
    destruct pre as [|a [|b [|c pre]]]; simpl in L; try lia.
    injection E as <- <- <- <-. reflexivity.
Defined.

(** The name of the first image is not always a way to keep it first: a
    name that begins with digits is read as an index (C9). *)
Example leading_digits_move_another :
  primaryStep (Some "1.jpg") ["1.jpg"; "b.jpg"] = ["b.jpg"; "1.jpg"].
Proof. reflexivity. Qed.

(** ** The order of the three image steps *)



(** The scenario of the specification, run: the first image goes, its file
    is deleted, the new file is first and the second image follows. *)
Example scenario_swap :
  updateProject Runtime.JSON_parse Sample.swap (Sample.on_disk [Sample.reef])
  = (mkResponse 200
       (OkProject (Project.set_images (Some [webPath "n.jpg"; webPath "b.jpg"]) Sample.reef)),
     mkDisk (Some [Project.set_images (Some [webPath "n.jpg"; webPath "b.jpg"]) Sample.reef])
       [webPath "a.jpg"]).
Proof. reflexivity. Qed.

(** ** The [removeImages] text *)

(** C10.  A [removeImages] text that parses to something else than an array
    gives the empty removal list, so nothing is removed; the list of
    comma-separated names is used only when the text does not parse, and a
    text that parses to an array gives its elements. *)
Theorem removeImages_text (JSON_parse : string -> option value) (raw : string) :
  (forall v, JSON_parse raw = Some v -> isArray v = false ->
     removeList JSON_parse raw = [] /\
     forall imgs, removeStep JSON_parse (Some raw) imgs = (imgs, [])) /\
  (forall l, JSON_parse raw = Some (JArr l) -> removeList JSON_parse raw = l) /\
  (JSON_parse raw = None ->
     removeList JSON_parse raw
     = map JStr (filter JS.truthy (map JS.trim (JS.split "," raw)))).
Proof.
  split; [|split].
  - intros v Ev Hv.
    assert (L : removeList JSON_parse raw = [])
      by (unfold removeList; now rewrite Ev, Hv).
    split; [exact L|]. intros imgs. unfold removeStep.
    destruct (falsy (Some raw)); [reflexivity|]. now rewrite L.
  - intros l E. unfold removeList. now rewrite E.
  - intros E. unfold removeList. now rewrite E.
Qed.

Lemma removeImages_text_witness :
  removeStep Runtime.JSON_parse (Some "5") ["old/5"; "b.jpg"] = (["old/5"; "b.jpg"], []) /\
  removeStep Runtime.JSON_parse (Some (Runtime.quoted "b.jpg")) ["old/5"; "b.jpg"]
  = (["old/5"; "b.jpg"], []) /\
  removeList Runtime.JSON_parse "5, b.jpg" = [JStr "5"; JStr "b.jpg"].
Proof.
  split; [|split].
  - apply (removeImages_text Runtime.JSON_parse "5") with (v := JNum "5");
      reflexivity.
  - apply (removeImages_text Runtime.JSON_parse (Runtime.quoted "b.jpg"))
      with (v := JStr "b.jpg"); reflexivity.
  - apply (removeImages_text Runtime.JSON_parse "5, b.jpg"). reflexivity.
Defined.

(** The same names without the quotes do not parse, and are removed. *)
Example bare_names_are_removed :
  removeStep Runtime.JSON_parse (Some "5, b.jpg") ["old/5"; "b.jpg"; "c.jpg"]
  = (["c.jpg"], ["old/5"; "b.jpg"]).
Proof. reflexivity. Qed.

(** ** The detail page *)

(** The three replacements, in the order of the source, escape each
    character once. *)
Lemma three_passes (s : string) :
  JS.replaceAll ">" "&gt;" (JS.replaceAll "<" "&lt;" (JS.replaceAll "&" "&amp;" s))
  = escape s.
Proof.
  induction s as [|c r IH]; [reflexivity|].
  cbn [escape]. unfold escape_char.
  destruct (Ascii.eqb_spec c "&") as [->|Na]; [simpl; now rewrite IH|].
  destruct (Ascii.eqb_spec c "<") as [->|Nl]; [simpl; now rewrite IH|].
  destruct (Ascii.eqb_spec c ">") as [->|Ng]; [simpl; now rewrite IH|].
  apply Ascii.eqb_neq in Na, Nl, Ng.
  cbn [JS.replaceAll]. rewrite Na. cbn [JS.replaceAll]. rewrite Nl.
  cbn [JS.replaceAll]. rewrite Ng. now rewrite IH.
Qed.

Lemma safe_escape (x : option string) : safe x = escape (text x).
Proof.
  unfold safe. rewrite three_passes. f_equal.
  destruct x as [s|]; [|reflexivity]. simpl.
  unfold JS.truthy. now destruct (String.eqb_spec s "") as [->|].
Qed.

Lemma escape_inert (s : string) : inert (escape s) = true.
Proof.
  induction s as [|c r IH]; [reflexivity|].
  cbn [escape]. unfold escape_char.
  destruct (Ascii.eqb_spec c "&") as [->|Na];
    [simpl; exact IH|].
  destruct (Ascii.eqb_spec c "<") as [->|Nl];
    [simpl; exact IH|].
  destruct (Ascii.eqb_spec c ">") as [->|Ng];
    [simpl; exact IH|].
  cbn [append inert].
  apply Ascii.eqb_neq in Na, Nl, Ng. now rewrite Na, Nl, Ng.
Qed.

Lemma escape_unescape (s : string) : unescape (escape s) = s.
Proof.
  induction s as [|c r IH]; [reflexivity|].
  cbn [escape]. unfold escape_char.
  destruct (Ascii.eqb_spec c "&") as [->|Na]; [simpl; now rewrite IH|].
  destruct (Ascii.eqb_spec c "<") as [->|Nl]; [simpl; now rewrite IH|].
  destruct (Ascii.eqb_spec c ">") as [->|Ng]; [simpl; now rewrite IH|].
  cbn [append unescape].
  apply Ascii.eqb_neq in Na. now rewrite Na, IH.
Qed.

Lemma outcomesHtml_escape (item : project) :
  outcomesHtml item
  = JS.join ""
      (map (fun o => "<li>" ++ escape o ++ "</li>")
         (match Project.outcomes item with Some l => l | None => [] end)).
Proof.
  unfold outcomesHtml. f_equal. apply map_ext. intros o. now rewrite safe_escape.
Qed.

(** C6.  The page is the fixed markup with, in the places of the title
    (twice), the date, the summary, each entry of the outcomes, the purpose
    and the results, the text of the field with [&], [<] and [>] replaced by
    their entities; an escaped text has no [<] and no [>], each of its [&]
    opens an entity, and it reads back as the field. *)
Theorem fields_are_escaped
  (markup : nat -> string) (JSON_stringify : list string -> string)
  (item : project) :
  html markup JSON_stringify item
  = weave markup 0
      [ escape (text (Project.title item));
        escape (text (Project.title item));
        mainImageSrc item;
        escape (text (Project.date item));
        escape (text (Project.summary item));
        JS.join ""
          (map (fun o => "<li>" ++ escape o ++ "</li>")
             (match Project.outcomes item with Some l => l | None => [] end));
        escape (text (Project.purpose item));
        escape (text (Project.results item));
        JSON_stringify (Project.images_or_empty item) ] /\
  (forall s, inert (escape s) = true /\ unescape (escape s) = s).
Proof.
  split.
  - unfold html, holes. now rewrite !safe_escape, outcomesHtml_escape.
  - intros s. split; [apply escape_inert | apply escape_unescape].
Qed.

(** * Further properties of the handlers *)

(** ** Looking a record up *)

Lemma find_absent (i : string) (l : list project) :
  (forall p, In p l -> Project.id p <> i) -> find (has_id i) l = None.
Proof.
  induction l as [|q r IH]; intros H; [reflexivity|]. cbn [find].
  rewrite has_id_false by (apply H; now left).
  apply IH. intros p Hp. apply H. now right.
Qed.

Lemma find_present (i : string) (pre post : list project) (p : project) :
  (forall q, In q pre -> Project.id q <> i) -> Project.id p = i ->
  find (has_id i) (pre ++ p :: post) = Some p.
Proof.
  induction pre as [|q r IH]; intros H E; cbn [app find].
  - now rewrite has_id_true.
  - rewrite has_id_false by (apply H; now left).
    apply IH; [|exact E]. intros x Hx. apply H. now right.
Qed.

Lemma findIndex_absent_id (i : string) (l : list project) :
  (forall p, In p l -> Project.id p <> i) -> JS.findIndex (has_id i) l = -1.
Proof.
  intros H. apply findIndex_none. intros p Hp. now apply has_id_false, H.
Qed.

Lemma findIndex_bounds {A : Type} (f : A -> bool) (l : list A) :
  JS.findIndex f l = -1 \/ 0 <= JS.findIndex f l < Z.of_nat (List.length l).
Proof.
  destruct (Z.eq_dec (JS.findIndex f l) (-1)) as [E|N]; [now left|right].
  destruct (findIndex_found f l _ eq_refl N) as (pre & x & post & -> & _ & _ & ->).
  rewrite length_app. simpl List.length. lia.
Qed.

Lemma readProjects_Forall (d : disk) :
  Forall (fun p => Project.images p <> None) (readProjects d).
Proof.
  apply Forall_forall. intros p Hp. rewrite (readProjects_images _ _ Hp). discriminate.
Qed.

Lemma written_back (l : list project) (d : disk) :
  Forall (fun p => Project.images p <> None) l ->
  readProjects (writeProjects l d) = l.
Proof.
  intros F. apply readProjects_written. intros p Hp.
  rewrite Forall_forall in F. specialize (F p Hp).
  destruct (Project.images p) as [m|]; [eauto|contradiction].
Qed.

(** X1.  Every record comes out of a load with an [images] list; a document
    whose records all have one is loaded as it is stored; and what a load
    gives, saved and loaded again, is the same list. *)
Theorem load_save_load (d d' : disk) :
  Forall (fun p => Project.images p <> None) (readProjects d) /\
  (forall data, projectsFile d = Some data ->
     Forall (fun p => Project.images p <> None) data -> readProjects d = data) /\
  readProjects (writeProjects (readProjects d) d') = readProjects d.
Proof.
  split; [apply readProjects_Forall|]. split.
  - intros data E F.
    replace d with (writeProjects data d) by (destruct d; simpl in *; now subst).
    now apply written_back.
  - apply written_back, readProjects_Forall.
Qed.

Lemma load_save_load_witness :
  readProjects Store.three = [Store.first; Store.second; Store.third] /\
  readProjects (writeProjects (readProjects (Sample.on_disk [Sample.gallery])) Store.three)
  = readProjects (Sample.on_disk [Sample.gallery]).
Proof.
  destruct (load_save_load Store.three Store.three) as (_ & Same & _).
  destruct (load_save_load (Sample.on_disk [Sample.gallery]) Store.three) as (_ & _ & Again).
  split; [|exact Again].
  apply Same; [reflexivity|]. repeat constructor; discriminate.
Defined.

(** X2.  An identifier that no stored record has: reading the record,
    updating it, deleting it and rendering its page all answer 404, the
    store document is left as it is and no image file is deleted, whatever
    the fields of the request are.  (The files of such an update are in the
    uploads folder by then, which the disk of the model leaves out.) *)
Theorem unknown_id_changes_nothing
  (JSON_parse : string -> option value)
  (markup : nat -> string) (JSON_stringify : list string -> string)
  (req : request) (d : disk) :
  (forall p, In p (readProjects d) -> Project.id p <> params_id req) ->
  getProject req d = (mkResponse 404 (Message "Not found"), d) /\
  updateProject JSON_parse req d = (mkResponse 404 (Message "Not found"), d) /\
  deleteProject req d = (mkResponse 404 (Message "Not found"), d) /\
  detailPage markup JSON_stringify req d = (mkResponse 404 (Text "Project not found"), d).
Proof.
  intros H. unfold getProject, updateProject, deleteProject, detailPage.
  rewrite (find_absent _ _ H), (findIndex_absent_id _ _ H). repeat split.
Qed.

Lemma unknown_id_changes_nothing_witness :
  updateProject Runtime.JSON_parse (Store.with_id "zzz" Store.prune []) Store.three
  = (mkResponse 404 (Message "Not found"), Store.three) /\
  deleteProject (Store.with_id "zzz" Store.no_change []) Store.three
  = (mkResponse 404 (Message "Not found"), Store.three).
Proof.
  split.
  - apply (unknown_id_changes_nothing Runtime.JSON_parse (fun _ => "") (fun _ => "")
             (Store.with_id "zzz" Store.prune []) Store.three).
    simpl. intros p [<-|[<-|[<-|[]]]]; discriminate.
  - apply (unknown_id_changes_nothing Runtime.JSON_parse (fun _ => "") (fun _ => "")
             (Store.with_id "zzz" Store.no_change []) Store.three).
    simpl. intros p [<-|[<-|[<-|[]]]]; discriminate.
Defined.

(** X3.  On a store document that is missing or does not parse, the list is
    empty and a create that passes the validation answers 200 and replaces
    the document by the new record alone. *)
Theorem unreadable_store
  (Date_parse : string -> option Z) (c : clock) (req : request) (d : disk) :
  projectsFile d = None ->
  listProjects Date_parse d = (mkResponse 200 (Records []), d) /\
  forall item d',
    createProject c req d = (mkResponse 200 (OkProject item), d') ->
    d' = mkDisk (Some [item]) (unlinked d).
Proof.
  intros E. unfold listProjects, createProject, readProjects, writeProjects.
  rewrite E. split; [reflexivity|]. intros item d'.
  destruct (_ || _ || _ || _); intros H; [discriminate|].
  injection H as <- <-. reflexivity.
Qed.

Lemma unreadable_store_witness :
  exists item,
    createProject Sample.at_noon Sample.filled Store.unreadable
    = (mkResponse 200 (OkProject item), mkDisk (Some [item]) []).
Proof.
  destruct (unreadable_store Runtime.Date_parse Sample.at_noon Sample.filled
              Store.unreadable eq_refl) as [_ H].
  eexists.
  rewrite (surjective_pairing (createProject Sample.at_noon Sample.filled Store.unreadable)).
  f_equal; [reflexivity|]. apply H. reflexivity.
Defined.

(** ** Creating a record *)

(** What a create that answers 200 has done. *)
Lemma createProject_ok (c : clock) (req : request) (d d' : disk) (item : project) :
  createProject c req d = (mkResponse 200 (OkProject item), d') ->
  d' = writeProjects (readProjects d ++ [item]) d /\
  Project.id item = uuid c /\
  Project.images item = Some (map webPath (files req)) /\
  Project.outcomes item
  = Some (lines (text (if falsy (Body.outcomes (body req)) then None
                       else Body.outcomes (body req)))) /\
  readProjects d' = (readProjects d ++ [item])%list.
Proof.
  unfold createProject. destruct (_ || _ || _ || _); intros H; [discriminate|].
  injection H as <- <-. repeat (split; [reflexivity|]). split.
  - cbn [Project.outcomes]. do 2 f_equal.
    destruct (falsy (Body.outcomes (body req))); [reflexivity|].
    now destruct (Body.outcomes (body req)).
  - apply written_back. apply Forall_app. split; [apply readProjects_Forall|].
    repeat constructor. discriminate.
Qed.

Lemma find_app_found (i : string) (l m : list project) (p : project) :
  find (has_id i) l = Some p -> find (has_id i) (l ++ m) = Some p.
Proof.
  induction l as [|q r IH]; [discriminate|]. cbn [app find].
  destruct (has_id i q); auto.
Qed.

(** X4.  After a create that answers 200 with an identifier no stored record
    had, reading that identifier gives the record created; and whatever
    could be read before is read as before. *)
Theorem create_then_get (c : clock) (req : request) (d d' : disk) (item : project) :
  createProject c req d = (mkResponse 200 (OkProject item), d') ->
  (forall p, In p (readProjects d) -> Project.id p <> uuid c) ->
  (forall asked, params_id asked = uuid c ->
     getProject asked d' = (mkResponse 200 (Record_ item), d')) /\
  (forall asked p, getProject asked d = (mkResponse 200 (Record_ p), d) ->
     getProject asked d' = (mkResponse 200 (Record_ p), d')).
Proof.
  intros H Fresh. destruct (createProject_ok _ _ _ _ _ H) as (_ & Hid & _ & _ & R).
  unfold getProject. rewrite R. split.
  - intros asked ->. rewrite <- Hid.
    rewrite find_present; auto. now rewrite Hid.
  - intros asked p. destruct (find _ (readProjects d)) as [q|] eqn:F; [|discriminate].
    intros E. injection E as ->. now rewrite (find_app_found _ _ _ _ F).
Qed.

Lemma create_then_get_witness :
  exists item d',
    createProject Sample.at_noon Sample.filled Store.three
    = (mkResponse 200 (OkProject item), d') /\
    getProject (Store.with_id "id-7" Store.no_change []) d'
    = (mkResponse 200 (Record_ item), d') /\
    getProject (Store.with_id "b" Store.no_change []) d'
    = (mkResponse 200 (Record_ Store.second), d').
Proof.
  eexists _, _. split; [reflexivity|].
  match goal with |- context [Record_ ?i] =>
    destruct (create_then_get Sample.at_noon Sample.filled Store.three _ i eq_refl)
      as [New Old]
  end.
  - simpl. intros p [<-|[<-|[<-|[]]]]; discriminate.
  - split; [now apply New | now apply (Old _ Store.second)].
Defined.

(** ** The list of leaders *)

Lemma trimEnd_shape (c : ascii) (r : string) :
  JS.trimEnd (String c r) = "" \/ exists t, JS.trimEnd (String c r) = String c t.
Proof.
  cbn [JS.trimEnd]. destruct (JS.trimEnd r); [|eauto].
  destruct (JS.is_space c); eauto.
Qed.

Lemma trimEnd_keeps_head (c : ascii) (r : string) :
  JS.is_space c = false -> exists t, JS.trimEnd (String c r) = String c t.
Proof.
  intros N. cbn [JS.trimEnd]. destruct (JS.trimEnd r); [|eauto].
  rewrite N. eauto.
Qed.

Lemma trimEnd_cons (c : ascii) (r : string) :
  JS.trimEnd (String c r)
  = match JS.trimEnd r with
    | EmptyString => if JS.is_space c then EmptyString else String c EmptyString
    | String e t => String c (String e t)
    end.
Proof. cbn [JS.trimEnd]. now destruct (JS.trimEnd r). Qed.

Lemma trimEnd_idempotent (s : string) : JS.trimEnd (JS.trimEnd s) = JS.trimEnd s.
Proof.
  induction s as [|c r IH]; [reflexivity|]. rewrite (trimEnd_cons c r).
  destruct (JS.trimEnd r) as [|e t] eqn:E.
  - destruct (JS.is_space c) eqn:S; [reflexivity|].
    now rewrite trimEnd_cons, S.
  - now rewrite trimEnd_cons, IH.
Qed.

Lemma trimStart_shape (s : string) :
  JS.trimStart s = "" \/
  exists c r, JS.trimStart s = String c r /\ JS.is_space c = false.
Proof.
  induction s as [|c r IH]; [now left|]. cbn [JS.trimStart].
  destruct (JS.is_space c) eqn:S; [exact IH|]. right. eauto.
Qed.

Lemma trim_idempotent (s : string) : JS.trim (JS.trim s) = JS.trim s.
Proof.
  unfold JS.trim. destruct (trimStart_shape s) as [->|(c & r & -> & N)];
    [reflexivity|].
  destruct (trimEnd_keeps_head c r N) as [t E]. rewrite E.
  cbn [JS.trimStart]. rewrite N, <- E. apply trimEnd_idempotent.
Qed.

Lemma lines_clean (t : string) :
  Forall (fun e => e <> "" /\ JS.trim e = e) (lines t).
Proof.
  unfold lines. apply Forall_forall. intros e He.
  apply filter_In in He. destruct He as [He T]. apply truthy_spec in T.
  split; [exact T|]. apply in_map_iff in He. destruct He as (raw & <- & _).
  apply trim_idempotent.
Qed.

(** X5.  The leaders a create stores are the lines of the [outcomes] text
    of the request (of the empty text when the field is absent), and those
    an update with an [outcomes] field stores are the lines of that text:
    each line trimmed, in the order of the text, the empty ones left out.
    So an entry is the trimmed form of a line of the text, no entry is
    empty and none has white space at either end.  An update without an
    [outcomes] field leaves the list as it is. *)
Theorem outcomes_are_clean (JSON_parse : string -> option value) :
  (forall c req d item d',
     createProject c req d = (mkResponse 200 (OkProject item), d') ->
     Project.outcomes item
     = Some (filter (fun e => negb (e =? "")%string)
               (map JS.trim (JS.split "010" (text (Body.outcomes (body req))))))) /\
  (forall req p0 t, Body.outcomes (body req) = Some t ->
     Project.outcomes (fst (edit JSON_parse req p0))
     = Some (filter (fun e => negb (e =? "")%string) (map JS.trim (JS.split "010" t)))) /\
  (forall req p0, Body.outcomes (body req) = None ->
     Project.outcomes (fst (edit JSON_parse req p0)) = Project.outcomes p0) /\
  (forall t,
     Forall (fun e => e <> "" /\ JS.trim e = e /\
                      exists line, In line (JS.split "010" t) /\ e = JS.trim line)
       (filter (fun e => negb (e =? "")%string) (map JS.trim (JS.split "010" t)))).
Proof.
  split; [|split; [|split]].
  - intros c req d item d' H.
    destruct (createProject_ok _ _ _ _ _ H) as (_ & _ & _ & O & _).
    rewrite O. do 2 f_equal.
    destruct (Body.outcomes (body req)) as [s|] eqn:E; [|reflexivity].
    cbn [falsy text]. unfold JS.truthy.
    destruct (String.eqb_spec s "") as [->|]; reflexivity.
  - intros req p0 t E.
    unfold edit. rewrite E. cbn [fst option_map assign Project.set_images
      Project.set_outcomes Project.outcomes]. reflexivity.
  - intros req p0 E. unfold edit. rewrite E.
    destruct (body req) as [[?|] [?|] [?|] ? [?|] [?|] ? ?]; reflexivity.
  - intros t. apply Forall_forall. intros e He.
    pose proof (lines_clean t) as C. rewrite Forall_forall in C.
    destruct (C e He) as [N T]. split; [exact N|]. split; [exact T|].
    apply filter_In in He. destruct He as [He _].
    apply in_map_iff in He. destruct He as (line & <- & Hl). eauto.
Qed.

Lemma outcomes_are_clean_witness :
  (exists item d',
     createProject Sample.at_noon Sample.filled Store.three
     = (mkResponse 200 (OkProject item), d') /\
     Project.outcomes item = Some ["Dr. A"; "Dr. B"]) /\
  Project.outcomes
    (fst (edit Runtime.JSON_parse (Store.with_id "b" Store.retitle []) Store.second))
  = Some ["Dr. C"; "Dr. D"] /\
  Project.outcomes
    (fst (edit Runtime.JSON_parse (Store.with_id "b" Store.prune []) Store.second))
  = Some ["Dr. A"; "Dr. B"].
Proof.
  destruct (outcomes_are_clean Runtime.JSON_parse) as (Made & Given & Absent & _).
  split; [|split].
  - eexists _, _. split; [reflexivity|].
    rewrite (Made Sample.at_noon Sample.filled Store.three _ _ eq_refl). reflexivity.
  - rewrite (Given (Store.with_id "b" Store.retitle []) Store.second _ eq_refl).
    reflexivity.
  - rewrite (Absent (Store.with_id "b" Store.prune []) Store.second eq_refl).
    reflexivity.
Defined.

(** ** The images of a new record *)

Lemma escape_webPath (f : string) :
  escape (webPath f) = "assets/images/projects/" ++ escape f.
Proof. reflexivity. Qed.

(** X6.  A create that answers 200 stores one image path per uploaded file,
    in upload order, each under [assets/images/projects/]; the detail page
    of the record shows the first upload as its main image, and the
    placeholder when nothing was uploaded. *)
Theorem created_images (c : clock) (req : request) (d d' : disk) (item : project) :
  createProject c req d = (mkResponse 200 (OkProject item), d') ->
  Project.images item = Some (map webPath (files req)) /\
  (forall k f, nth_error (files req) k = Some f ->
     nth_error (Project.images_or_empty item) k = Some ("assets/images/projects/" ++ f)) /\
  mainImageSrc item
  = match files req with
    | [] => "/assets/images/placeholder.png"
    | f :: _ => "/assets/images/projects/" ++ escape f
    end.
Proof.
  intros H. destruct (createProject_ok _ _ _ _ _ H) as (_ & _ & I & _ & _).
  split; [exact I|]. split.
  - intros k f Hk. unfold Project.images_or_empty. rewrite I.
    now rewrite nth_error_map, Hk.
  - unfold mainImageSrc, primary, Project.images_or_empty. rewrite I.
    destruct (files req) as [|f r]; [reflexivity|]. cbn [map].
    replace (JS.truthy (webPath f)) with true by reflexivity.
    rewrite safe_escape. cbn [text]. now rewrite escape_webPath.
Qed.

Lemma created_images_witness :
  exists item d',
    createProject Sample.at_noon Sample.filled Store.three
    = (mkResponse 200 (OkProject item), d') /\
    mainImageSrc item = "/assets/images/projects/project-1-u.jpg".
Proof.
  eexists _, _. split; [reflexivity|].
  match goal with |- mainImageSrc ?i = _ =>
    destruct (created_images Sample.at_noon Sample.filled Store.three _ i eq_refl)
      as (_ & _ & Main)
  end.
  rewrite Main. reflexivity.
Defined.

(** ** What an update keeps *)


Lemma edit_has_images (JSON_parse : string -> option value) (req : request)
  (p0 : project) :
  Project.images (fst (edit JSON_parse req p0)) <> None.
Proof. rewrite edit_images. discriminate. Qed.




(** X8.  An update is a partial merge: each of [title], [summary], [date],
    [results], [purpose] takes the value of the request when the request
    has the field, an empty string included, and keeps its stored value
    when it has not. *)
Theorem update_merges_fields (JSON_parse : string -> option value)
  (req : request) (p0 : project) :
  let merged (sent stored : option string) :=
    match sent with Some s => Some s | None => stored end in
  Project.title (fst (edit JSON_parse req p0))
  = merged (Body.title (body req)) (Project.title p0) /\
  Project.summary (fst (edit JSON_parse req p0))
  = merged (Body.summary (body req)) (Project.summary p0) /\
  Project.date (fst (edit JSON_parse req p0))
  = merged (Body.date (body req)) (Project.date p0) /\
  Project.results (fst (edit JSON_parse req p0))
  = merged (Body.results (body req)) (Project.results p0) /\
  Project.purpose (fst (edit JSON_parse req p0))
  = merged (Body.purpose (body req)) (Project.purpose p0).
Proof.
  unfold edit. destruct (body req) as [[?|] [?|] [?|] [?|] [?|] [?|] ? ?];
    repeat split.
Qed.




(** ** What the image steps keep *)

Lemma subseq_refl {A : Type} (l : list A) : subseq l l.
Proof. induction l; [apply subseq_nil | now apply subseq_keep]. Qed.

Lemma subseq_trans {A : Type} (l m n : list A) :
  subseq l m -> subseq m n -> subseq l n.
Proof.
  intros H1 H2. revert l H1.
  induction H2 as [|x m n H2 IH|x m n H2 IH]; intros l H1.
  - exact H1.
  - apply subseq_skip. now apply IH.
  - inversion H1; subst; [apply subseq_skip | apply subseq_keep]; now apply IH.
Qed.

Lemma subseq_drop_one {A : Type} (pre post : list A) (x : A) :
  subseq (pre ++ post) (pre ++ x :: post).
Proof.
  induction pre as [|y r IH]; cbn [app].
  - apply subseq_skip, subseq_refl.
  - now apply subseq_keep.
Qed.

Lemma Permutation_drop_one {A : Type} (pre post gone : list A) (x : A) :
  Permutation ((pre ++ x :: post) ++ gone) ((pre ++ post) ++ gone ++ [x]).
Proof.
  rewrite <- !app_assoc. cbn [app].
  eapply perm_trans; [apply Permutation_sym, Permutation_middle|].
  eapply perm_trans; [apply Permutation_cons_append|].
  rewrite <- !app_assoc. reflexivity.
Qed.

Section Accounting.

Variable JSON_parse : string -> option value.

(** One turn of the removal keeps the images it does not delete, in their
    order, and deletes at most one. *)
Lemma removeOne_accounts (rem : value) (kept gone : list string) :
  Permutation (kept ++ gone)
    (fst (removeOne (kept, gone) rem) ++ snd (removeOne (kept, gone) rem)) /\
  subseq (fst (removeOne (kept, gone) rem)) kept /\
  (List.length (snd (removeOne (kept, gone) rem)) <= S (List.length gone))%nat.
Proof.
  destruct (removeOne_cases rem kept gone)
    as [(pre & x & post & -> & _ & _ & ->) | [_ ->]]; cbn [fst snd].
  - split; [apply Permutation_drop_one|]. split; [apply subseq_drop_one|].
    rewrite length_app. simpl. lia.
  - split; [reflexivity|]. split; [apply subseq_refl | lia].
Qed.

Lemma removeAll_accounts (rems : list value) (kept gone : list string) :
  Permutation (kept ++ gone)
    (fst (fold_left removeOne rems (kept, gone))
     ++ snd (fold_left removeOne rems (kept, gone))) /\
  subseq (fst (fold_left removeOne rems (kept, gone))) kept /\
  (List.length (snd (fold_left removeOne rems (kept, gone)))
   <= List.length rems + List.length gone)%nat.
Proof.
  revert kept gone. induction rems as [|rem r IH]; intros kept gone; cbn [fold_left].
  - split; [reflexivity|]. split; [apply subseq_refl | simpl; lia].
  - destruct (removeOne_accounts rem kept gone) as (P1 & S1 & L1).
    destruct (removeOne (kept, gone) rem) as [k1 g1]. cbn [fst snd] in *.
    destruct (IH k1 g1) as (P2 & S2 & L2).
    split; [now rewrite P1|]. split; [eapply subseq_trans; eauto|].
    simpl List.length. lia.
Qed.

Lemma removeStep_accounts (raw : option string) (imgs : list string) :
  Permutation imgs
    (fst (removeStep JSON_parse raw imgs) ++ snd (removeStep JSON_parse raw imgs)) /\
  subseq (fst (removeStep JSON_parse raw imgs)) imgs.
Proof.
  unfold removeStep. destruct (falsy raw), raw as [t|]; cbn [fst snd];
    try (rewrite app_nil_r; split; [reflexivity | apply subseq_refl]).
  destruct (removeAll_accounts (removeList JSON_parse t) imgs []) as (P & S & _).
  rewrite app_nil_r in P. now split.
Qed.

Lemma targetIndex_bounds (mp : string) (imgs : list string) :
  targetIndex mp imgs = -1 \/ 0 <= targetIndex mp imgs < Z.of_nat (List.length imgs).
Proof.
  unfold targetIndex. destruct (JS.parseInt mp) as [i|]; [|apply findIndex_bounds].
  destruct (Z.geb_spec i 0); [|apply findIndex_bounds].
  destruct (Z.ltb_spec i (Z.of_nat (List.length imgs))); [|apply findIndex_bounds].
  right. cbn [andb]. lia.
Qed.

(** The make-primary step either leaves the images alone or moves one of
    them, not the first, to the front. *)
Lemma primaryStep_cases (raw : option string) (imgs : list string) :
  primaryStep raw imgs = imgs \/
  exists pre x post,
    pre <> [] /\ imgs = (pre ++ x :: post)%list /\
    primaryStep raw imgs = (x :: pre ++ post)%list.
Proof.
  unfold primaryStep. destruct (falsy raw); [now left|].
  destruct raw as [mp|]; [|now left].
  destruct (Z.gtb_spec (targetIndex mp imgs) 0) as [G|G]; [|now left]. right.
  destruct (targetIndex_bounds mp imgs) as [E|R]; [lia|].
  destruct (nth_error imgs (Z.to_nat (targetIndex mp imgs))) as [x|] eqn:Hx.
  - destruct (nth_error_split _ _ Hx) as (pre & post & E & L).
    exists pre, x, post. split; [intros ->; simpl in L; lia|]. split; [exact E|].
    rewrite <- L. rewrite E at 1. now rewrite splice1_at.
  - apply nth_error_None in Hx. lia.
Qed.

Lemma primaryStep_perm (raw : option string) (imgs : list string) :
  Permutation imgs (primaryStep raw imgs).
Proof.
  destruct (primaryStep_cases raw imgs) as [->|(pre & x & post & _ & -> & ->)];
    [reflexivity|].
  apply Permutation_sym, Permutation_middle.
Qed.

End Accounting.

(** X10.  Whatever the [removeImages] field holds, the removal step splits
    the images in two: those kept, in their stored order, and those handed
    to the file deletion; nothing is lost, nothing is deleted that was not
    an image of the record, and each identifier deletes at most one
    image. *)
Theorem removal_accounts (JSON_parse : string -> option value)
  (raw : option string) (imgs : list string) :
  Permutation imgs
    (fst (removeStep JSON_parse raw imgs) ++ snd (removeStep JSON_parse raw imgs)) /\
  subseq (fst (removeStep JSON_parse raw imgs)) imgs /\
  incl (snd (removeStep JSON_parse raw imgs)) imgs /\
  (List.length (snd (removeStep JSON_parse raw imgs))
   <= match raw with
      | Some t => List.length (removeList JSON_parse t)
      | None => 0
      end)%nat.
Proof.
  destruct (removeStep_accounts JSON_parse raw imgs) as [P S].
  split; [exact P|]. split; [exact S|]. split.
  - intros x Hx. apply (Permutation_in _ (Permutation_sym P)).
    apply in_or_app. now right.
  - unfold removeStep. destruct raw as [t|]; [|simpl; lia].
    destruct (falsy (Some t)); [simpl; lia|].
    destruct (removeAll_accounts (removeList JSON_parse t) imgs []) as (_ & _ & L).
    simpl in L. lia.
Qed.

(** X11.  The make-primary step never loses or repeats an image: it returns
    the images as they are, or with one image that was not the first moved
    to the front and the others in their order. *)
Theorem primary_moves_one (raw : option string) (imgs : list string) :
  Permutation imgs (primaryStep raw imgs) /\
  List.length (primaryStep raw imgs) = List.length imgs /\
  (primaryStep raw imgs = imgs \/
   exists pre x post,
     pre <> [] /\ imgs = (pre ++ x :: post)%list /\
     primaryStep raw imgs = (x :: pre ++ post)%list).
Proof.
  split; [apply primaryStep_perm|]. split; [|apply primaryStep_cases].
  symmetry. apply Permutation_length, primaryStep_perm.
Qed.


(** ** Making an image primary twice *)

(** X13.  When [makePrimary] is not an index in range, the make-primary step
    is idempotent: the image it moved to the front is the first that the
    name finds the second time. *)
Theorem primary_by_name_is_idempotent (mp : string) (imgs : list string) :
  (forall i, JS.parseInt mp = Some i -> i < 0 \/ Z.of_nat (List.length imgs) <= i) ->
  primaryStep (Some mp) (primaryStep (Some mp) imgs) = primaryStep (Some mp) imgs.
Proof.
  intros H. destruct (String.eqb_spec mp "") as [->|N]; [reflexivity|].
  pose proof (targetIndex_by_name mp imgs H) as T.
  destruct (Z.eq_dec (JS.findIndex (fun img => JS.endsWith img mp) imgs) (-1)) as [E|F].
  - rewrite (primaryStep_stays mp imgs) by lia. apply primaryStep_stays. lia.
  - destruct (findIndex_found _ _ _ eq_refl F) as (pre & x & post & -> & Hpre & Hx & Hi).
    rewrite (primaryStep_moves mp pre post x N) by lia.
    apply primaryStep_stays. rewrite targetIndex_by_name.
    + simpl. rewrite Hx. lia.
    + intros i Hi'. specialize (H i Hi'). rewrite length_app in H.
      simpl List.length in *. rewrite length_app. lia.
Qed.

Lemma primary_by_name_is_idempotent_witness :
  primaryStep (Some "b2.jpg")
    (primaryStep (Some "b2.jpg") (Project.images_or_empty Store.second))
  = [webPath "b2.jpg"; webPath "b1.jpg"; "old/b3.jpg"].
Proof.
  rewrite (primary_by_name_is_idempotent "b2.jpg" (Project.images_or_empty Store.second)).
  - reflexivity.
  - intros i Hi. discriminate Hi.
Defined.

(** By index it is not: the image put first leaves the index to another. *)
Example primary_by_index_alternates :
  primaryStep (Some "1") ["a.jpg"; "b.jpg"] = ["b.jpg"; "a.jpg"] /\
  primaryStep (Some "1") (primaryStep (Some "1") ["a.jpg"; "b.jpg"]) = ["a.jpg"; "b.jpg"].
Proof. split; reflexivity. Qed.

(** ** The empty identifier *)

Lemma substring_none (s : string) : substring (String.length s) 0 s = "".
Proof. induction s as [|c r IH]; [reflexivity|exact IH]. Qed.

Lemma endsWith_empty (s : string) : JS.endsWith s "" = true.
Proof.
  unfold JS.endsWith. cbn [String.length Nat.leb]. now rewrite Nat.sub_0_r, substring_none.
Qed.

Lemma matches_empty (rem : value) (img : string) :
  ToString rem = "" -> matches rem img = true.
Proof.
  intros E. unfold matches. destruct rem; try (rewrite E; apply endsWith_empty).
  cbn [ToString] in E. subst s. now rewrite endsWith_empty, orb_true_r.
Qed.

(** X14.  An identifier whose string form is empty (the empty string of a
    JSON array, or an empty array in it) matches every image, so it removes
    the first image of the record; the comma-separated form never yields
    such an identifier. *)
Theorem empty_identifier_removes_first (JSON_parse : string -> option value) :
  (forall rem x r gone, ToString rem = "" ->
     removeOne (x :: r, gone) rem = (r, (gone ++ [x])%list)) /\
  (forall raw, JSON_parse raw = None ->
     Forall (fun rem => ToString rem <> "") (removeList JSON_parse raw)).
Proof.
  split.
  - intros rem x r gone E.
    apply (removeOne_match rem [] x r gone); [intros y []|now apply matches_empty].
  - intros raw E. unfold removeList. rewrite E. apply Forall_forall.
    intros rem Hr. apply in_map_iff in Hr. destruct Hr as (t & <- & Ht).
    apply filter_In in Ht. destruct Ht as [_ T]. now apply truthy_spec in T.
Qed.

Lemma empty_identifier_removes_first_witness :
  removeStep Runtime.JSON_parse (Some ("[" ++ Runtime.quoted "" ++ "]"))
    (Project.images_or_empty Store.second)
  = ([webPath "b2.jpg"; "old/b3.jpg"], [webPath "b1.jpg"]) /\
  Forall (fun rem => ToString rem <> "") (removeList Runtime.JSON_parse "b1.jpg, ,").
Proof.
  destruct (empty_identifier_removes_first Runtime.JSON_parse) as [First Never].
  split.
  - change (removeOne (Project.images_or_empty Store.second, []) (JStr "")
            = ([webPath "b2.jpg"; "old/b3.jpg"], [webPath "b1.jpg"])).
    apply (First (JStr "")). reflexivity.
  - apply Never. reflexivity.
Defined.

(** ** Deleting a record *)

Lemma deleteProject_found (req : request) (d : disk) (pre post : list project)
  (p0 : project) :
  readProjects d = (pre ++ p0 :: post)%list ->
  (forall q, In q pre -> Project.id q <> params_id req) ->
  Project.id p0 = params_id req ->
  deleteProject req d
  = (mkResponse 200 (OkDeleted p0),
     writeProjects (pre ++ post) (unlink (Project.images_or_empty p0) d)).
Proof.
  intros E Hpre Hp. unfold deleteProject. rewrite E.
  rewrite (findIndex_first (has_id (params_id req)) pre p0 post)
    by (auto using has_id_false, has_id_true).
  destruct (Z.eqb_spec (Z.of_nat (List.length pre)) (-1)); [lia|].
  now rewrite Nat2Z.id, splice1_at.
Qed.

Lemma find_absent_app (i : string) (pre post : list project) :
  (forall q, In q pre -> Project.id q <> i) ->
  (forall q, In q post -> Project.id q <> i) ->
  find (has_id i) (pre ++ post) = None.
Proof.
  intros H1 H2. apply find_absent. intros p Hp.
  apply in_app_or in Hp. destruct Hp; auto.
Qed.

Lemma find_removed (j : string) (pre post : list project) (p0 q : project) :
  Project.id p0 <> j ->
  find (has_id j) (pre ++ p0 :: post) = Some q ->
  find (has_id j) (pre ++ post) = Some q.
Proof.
  intros N. induction pre as [|x r IH]; cbn [app find].
  - now rewrite has_id_false.
  - destruct (has_id j x); auto.
Qed.

(** X15.  A delete of a stored record answers 200 with the first record of
    that identifier, writes the store back without it, the other records in
    their order, and hands every image of the record to the file
    deletion. *)
Theorem delete_removes_record (req : request) (d : disk)
  (pre post : list project) (p0 : project) :
  readProjects d = (pre ++ p0 :: post)%list ->
  (forall q, In q pre -> Project.id q <> params_id req) ->
  Project.id p0 = params_id req ->
  deleteProject req d
  = (mkResponse 200 (OkDeleted p0),
     mkDisk (Some (pre ++ post)%list) (unlinked d ++ Project.images_or_empty p0)%list) /\
  readProjects (snd (deleteProject req d)) = (pre ++ post)%list.
Proof.
  intros E Hpre Hp. rewrite (deleteProject_found req d pre post p0 E Hpre Hp).
  split; [reflexivity|]. cbn [snd]. apply written_back.
  pose proof (readProjects_Forall d) as F. rewrite E in F.
  apply Forall_app in F. destruct F as [Fpre Fpost].
  apply Forall_app. split; [exact Fpre | now inversion Fpost].
Qed.

Lemma delete_removes_record_witness :
  deleteProject (Store.with_id "b" Store.no_change []) Store.three
  = (mkResponse 200 (OkDeleted Store.second),
     mkDisk (Some [Store.first; Store.third])
       [webPath "b1.jpg"; webPath "b2.jpg"; "old/b3.jpg"]).
Proof.
  apply (delete_removes_record (Store.with_id "b" Store.no_change []) Store.three
           [Store.first] [Store.third] Store.second eq_refl).
  - intros q [<-|[]]. discriminate.
  - reflexivity.
Defined.

(** X16.  When no other record has the identifier, a deleted record is gone:
    reading it and deleting it again answer 404; a record of another
    identifier is read as before. *)
Theorem delete_then_get (req : request) (d : disk)
  (pre post : list project) (p0 : project) :
  readProjects d = (pre ++ p0 :: post)%list ->
  (forall q, In q pre -> Project.id q <> params_id req) ->
  Project.id p0 = params_id req ->
  (forall q, In q post -> Project.id q <> params_id req) ->
  getProject req (snd (deleteProject req d))
  = (mkResponse 404 (Message "Not found"), snd (deleteProject req d)) /\
  deleteProject req (snd (deleteProject req d))
  = (mkResponse 404 (Message "Not found"), snd (deleteProject req d)) /\
  forall asked q,
    params_id asked <> params_id req ->
    getProject asked d = (mkResponse 200 (Record_ q), d) ->
    getProject asked (snd (deleteProject req d))
    = (mkResponse 200 (Record_ q), snd (deleteProject req d)).
Proof.
  intros E Hpre Hp Hpost.
  assert (R : readProjects (snd (deleteProject req d)) = (pre ++ post)%list).
  { rewrite (deleteProject_found req d pre post p0 E Hpre Hp). cbn [snd].
    apply written_back.
    pose proof (readProjects_Forall d) as F. rewrite E in F.
    apply Forall_app in F. destruct F as [Fpre Fpost].
    apply Forall_app. split; [exact Fpre | now inversion Fpost]. }
  remember (snd (deleteProject req d)) as d1 eqn:D1. clear D1.
  unfold getProject, deleteProject. rewrite R, E.
  rewrite (find_absent_app _ _ _ Hpre Hpost).
  rewrite findIndex_absent_id
    by (intros p Hp'; apply in_app_or in Hp'; destruct Hp'; auto).
  repeat split. intros asked q N.
  destruct (find _ (pre ++ p0 :: post)) as [x|] eqn:F; [|discriminate].
  intros H. injection H as ->.
  rewrite (find_removed _ _ _ p0 q); [reflexivity| |exact F]. rewrite Hp. auto.
Qed.

Lemma delete_then_get_witness :
  getProject (Store.with_id "b" Store.no_change [])
    (snd (deleteProject (Store.with_id "b" Store.no_change []) Store.three))
  = (mkResponse 404 (Message "Not found"),
     snd (deleteProject (Store.with_id "b" Store.no_change []) Store.three)).
Proof.
  apply (delete_then_get (Store.with_id "b" Store.no_change []) Store.three
           [Store.first] [Store.third] Store.second eq_refl).
  - intros q [<-|[]]. discriminate.
  - reflexivity.
  - intros q [<-|[]]. discriminate.
Defined.

(** ** What a mutation leaves on the disk *)

Lemma found_or_not (i : string) (l : list project) :
  (forall p, In p l -> Project.id p <> i) \/
  exists pre p0 post,
    l = (pre ++ p0 :: post)%list /\
    (forall q, In q pre -> Project.id q <> i) /\ Project.id p0 = i.
Proof.
  destruct (Z.eq_dec (JS.findIndex (has_id i) l) (-1)) as [E|N].
  - left. intros p Hp. pose proof (findIndex_absent _ _ E p Hp) as F.
    unfold has_id in F. now apply String.eqb_neq.
  - right. destruct (findIndex_found _ _ _ eq_refl N)
      as (pre & p0 & post & -> & Hpre & Hp & _).
    exists pre, p0, post. split; [reflexivity|]. split.
    + intros q Hq. specialize (Hpre q Hq). unfold has_id in Hpre.
      now apply String.eqb_neq.
    + unfold has_id in Hp. now apply String.eqb_eq.
Qed.

Lemma stored_images_of (d : disk) (pre post : list project) (p0 : project) (x : string) :
  readProjects d = (pre ++ p0 :: post)%list ->
  In x (Project.images_or_empty p0) -> In x (stored_images d).
Proof.
  intros E Hx. unfold stored_images. rewrite E. apply in_concat.
  exists (Project.images_or_empty p0). split; [|exact Hx].
  apply in_map, in_or_app. right. now left.
Qed.

(** X17.  On a request whose removal identifiers all have a string form, a
    mutating route does one of two things.  It answers 200 and leaves a
    store document in which every record has an [images] list (a legacy
    record is written back in the new form), the files it deleted being
    images of stored records; or it answers something else, leaves the
    store document as it was and deletes no image file.  (What multer put
    in the uploads folder for the request is not part of the disk of the
    model.) *)
Theorem mutation_writes_or_leaves
  (JSON_parse : string -> option value) (jwt_verify : string -> bool)
  (e : endpoint) (req : request) (d : disk) :
  (forall t, Body.removeImages (body req) = Some t ->
     Forall (fun rem => stringable rem = true) (removeList JSON_parse t)) ->
  (status (fst (route JSON_parse jwt_verify e req d)) = 200%nat /\
   exists l gone,
     snd (route JSON_parse jwt_verify e req d) = mkDisk (Some l) (unlinked d ++ gone) /\
     Forall (fun p => Project.images p <> None) l /\
     incl gone (stored_images d)) \/
  (status (fst (route JSON_parse jwt_verify e req d)) <> 200%nat /\
   projectsFile (snd (route JSON_parse jwt_verify e req d)) = projectsFile d /\
   unlinked (snd (route JSON_parse jwt_verify e req d)) = unlinked d).
Proof.
  intros _. unfold route, requireAuth.
  destruct (falsy (token req)); [right; split; [discriminate|split; reflexivity]|].
  destruct (token req) as [t|]; [|right; split; [discriminate|split; reflexivity]].
  destruct (jwt_verify t); [|right; split; [discriminate|split; reflexivity]].
  pose proof (readProjects_Forall d) as F.
  destruct e as [c| |]; cbn [endpoint_handler].
  - unfold createProject. destruct (_ || _ || _ || _);
      [right; split; [discriminate|split; reflexivity]|].
    left. split; [reflexivity|]. eexists _, []. split; [|split].
    + cbn [snd]. unfold writeProjects. now rewrite app_nil_r.
    + apply Forall_app. split; [exact F|]. repeat constructor. discriminate.
    + intros x [].
  - destruct (found_or_not (params_id req) (readProjects d))
      as [H|(pre & p0 & post & E & Hpre & Hp)].
    + right. unfold updateProject. rewrite (findIndex_absent_id _ _ H).
      split; [discriminate|split; reflexivity].
    + left. rewrite (updateProject_found JSON_parse req d pre post p0 E Hpre Hp).
      split; [reflexivity|]. eexists _, _. split; [reflexivity|]. split.
      * rewrite E in F. apply Forall_app in F. destruct F as [Fpre Fpost].
        apply Forall_app. split; [exact Fpre|].
        constructor; [apply edit_has_images | now inversion Fpost].
      * intros x Hx. apply (stored_images_of d pre post p0 x E).
        assert (G : snd (edit JSON_parse req p0)
                    = snd (removeStep JSON_parse (Body.removeImages (body req))
                             (Project.images_or_empty p0))).
        { unfold edit. cbn [snd].
          destruct (body req) as [[?|] [?|] [?|] [?|] [?|] [?|] ? ?]; reflexivity. }
        rewrite G in Hx.
        destruct (removeStep_accounts JSON_parse (Body.removeImages (body req))
                    (Project.images_or_empty p0)) as [P _].
        apply (Permutation_in _ (Permutation_sym P)), in_or_app. now right.
  - destruct (found_or_not (params_id req) (readProjects d))
      as [H|(pre & p0 & post & E & Hpre & Hp)].
    + right. unfold deleteProject. rewrite (findIndex_absent_id _ _ H).
      split; [discriminate|split; reflexivity].
    + left. rewrite (deleteProject_found req d pre post p0 E Hpre Hp).
      split; [reflexivity|]. eexists _, _. split; [reflexivity|]. split.
      * rewrite E in F. apply Forall_app in F. destruct F as [Fpre Fpost].
        apply Forall_app. split; [exact Fpre | now inversion Fpost].
      * intros x Hx. exact (stored_images_of d pre post p0 x E Hx).
Qed.

Lemma mutation_writes_or_leaves_witness :
  status (fst (route Runtime.JSON_parse Sample.verify PutProject Album.drop_two Store.three))
  = 200%nat /\
  exists l gone,
    snd (route Runtime.JSON_parse Sample.verify PutProject Album.drop_two Store.three)
    = mkDisk (Some l) (unlinked Store.three ++ gone) /\
    Forall (fun p => Project.images p <> None) l /\
    incl gone (stored_images Store.three).
Proof.
  destruct (mutation_writes_or_leaves Runtime.JSON_parse Sample.verify PutProject
              Album.drop_two Store.three) as [Written|[Other _]].
  - intros t E. injection E as <-. repeat constructor.
  - exact Written.
  - exfalso. apply Other. reflexivity.
Defined.

(** A legacy record is rewritten by the next mutation of the store, here a
    create. *)
Example legacy_is_rewritten :
  projectsFile
    (snd (route Runtime.JSON_parse Sample.verify (PostProjects Sample.at_noon)
            Sample.filled (Sample.on_disk [Sample.cover])))
  = Some [migrate Sample.cover;
          Project.mk "id-7" (Some "Reef Survey")
            (Some ["assets/images/projects/project-1-u.jpg"]) None (Some "A survey.")
            (Some "2024-01-01") (Some ["Dr. A"; "Dr. B"]) (Some "Done.") (Some "")
            (Some "2024-03-01T12:00:00.000Z")].
Proof. reflexivity. Qed.

(** ** The list and the single record *)

Lemma find_unique (l : list project) (p : project) :
  NoDup (map Project.id l) -> In p l -> find (has_id (Project.id p)) l = Some p.
Proof.
  induction l as [|q r IH]; intros N Hp; [destruct Hp|]. cbn [find].
  inversion N as [|? ? Hq Nr]; subst. destruct Hp as [->|Hp].
  - now rewrite has_id_true.
  - rewrite has_id_false; [now apply IH|].
    intros E. apply Hq. rewrite E. now apply in_map.
Qed.

(** X18.  Whatever the dates are, the list operation answers 200 with every
    stored record exactly once and writes nothing; when the identifiers of
    the store are distinct, each record listed is the one that reading its
    identifier gives. *)
Theorem list_returns_every_record (Date_parse : string -> option Z) (d : disk) :
  exists out,
    listProjects Date_parse d = (mkResponse 200 (Records out), d) /\
    Permutation (readProjects d) out /\
    List.length out = List.length (readProjects d) /\
    (NoDup (map Project.id (readProjects d)) ->
     forall p asked, In p out -> params_id asked = Project.id p ->
       getProject asked d = (mkResponse 200 (Record_ p), d)).
Proof.
  exists (sort (newest_first Date_parse) (readProjects d)).
  split; [reflexivity|]. split; [apply sort_perm|].
  split; [symmetry; apply Permutation_length, sort_perm|].
  intros N p asked Hp E. apply sort_In in Hp.
  unfold getProject. now rewrite E, (find_unique _ _ N Hp).
Qed.

Lemma list_returns_every_record_witness :
  exists out,
    listProjects Runtime.Date_parse Store.three = (mkResponse 200 (Records out), Store.three) /\
    getProject (Store.with_id "c" Store.no_change []) Store.three
    = (mkResponse 200 (Record_ Store.third), Store.three).
Proof.
  destruct (list_returns_every_record Runtime.Date_parse Store.three)
    as (out & L & P & _ & G).
  exists out. split; [exact L|]. apply G.
  - repeat constructor; simpl; intuition discriminate.
  - apply (Permutation_in _ P). simpl. auto.
  - reflexivity.
Defined.

(** ** The gallery of the detail page *)

Section GalleryFacts.

Variable images : list string.

Local Notation "'n'" := (Z.of_nat (List.length images)).

Lemma gallery_not_empty (i : Z) :
  0 <= i < n -> (List.length images =? 0)%nat = false.
Proof. intros R. apply Nat.eqb_neq. lia. Qed.

Lemma next_index (i : Z) :
  0 <= i < n -> Z.rem (i + 1) n = if i + 1 =? n then 0 else i + 1.
Proof.
  intros R. destruct (Z.eqb_spec (i + 1) n) as [E|N].
  - rewrite E. apply Z.rem_same. lia.
  - apply Z.rem_small. lia.
Qed.

Lemma prev_index (i : Z) :
  0 <= i < n -> Z.rem (i - 1 + n) n = if i =? 0 then n - 1 else i - 1.
Proof.
  intros R. rewrite Z.rem_mod_nonneg by lia.
  destruct (Z.eqb_spec i 0) as [->|N].
  - replace (0 - 1 + n) with (n - 1) by lia. apply Z.mod_small. lia.
  - replace (i - 1 + n) with (i - 1 + 1 * n) by lia.
    rewrite Z.mod_add by lia. apply Z.mod_small. lia.
Qed.

Lemma nextImage_at (i : Z) :
  0 <= i < n ->
  Gallery.nextImage images (Gallery.setImage images i)
  = Gallery.setImage images (if i + 1 =? n then 0 else i + 1).
Proof.
  intros R. unfold Gallery.nextImage. rewrite (gallery_not_empty i R).
  cbn [Gallery.cur Gallery.setImage]. now rewrite next_index.
Qed.

Lemma prevImage_at (i : Z) :
  0 <= i < n ->
  Gallery.prevImage images (Gallery.setImage images i)
  = Gallery.setImage images (if i =? 0 then n - 1 else i - 1).
Proof.
  intros R. unfold Gallery.prevImage. rewrite (gallery_not_empty i R).
  cbn [Gallery.cur Gallery.setImage]. now rewrite prev_index.
Qed.

End GalleryFacts.

(** X19.  In the gallery of a page with images, the next button shows the
    following image and the first after the last, the previous button the
    preceding image and the last before the first; each undoes the other;
    on a page without images both do nothing. *)
Theorem gallery_navigation (images : list string) (i : Z) :
  0 <= i < Z.of_nat (List.length images) ->
  Gallery.nextImage images (Gallery.setImage images i)
  = Gallery.setImage images (if i + 1 =? Z.of_nat (List.length images) then 0 else i + 1) /\
  Gallery.prevImage images (Gallery.setImage images i)
  = Gallery.setImage images (if i =? 0 then Z.of_nat (List.length images) - 1 else i - 1) /\
  Gallery.prevImage images (Gallery.nextImage images (Gallery.setImage images i))
  = Gallery.setImage images i /\
  Gallery.nextImage images (Gallery.prevImage images (Gallery.setImage images i))
  = Gallery.setImage images i /\
  forall v, Gallery.nextImage [] v = v /\ Gallery.prevImage [] v = v.
Proof.
  intros R. split; [now apply nextImage_at|]. split; [now apply prevImage_at|].
  split; [|split; [|now split]].
  - rewrite nextImage_at by exact R.
    destruct (Z.eqb_spec (i + 1) (Z.of_nat (List.length images))) as [E|N].
    + rewrite prevImage_at by lia. cbn [Z.eqb]. f_equal. lia.
    + rewrite prevImage_at by lia.
      destruct (Z.eqb_spec (i + 1) 0); [lia|]. f_equal. lia.
  - rewrite prevImage_at by exact R. destruct (Z.eqb_spec i 0) as [->|N].
    + rewrite nextImage_at by lia.
      destruct (Z.eqb_spec (Z.of_nat (List.length images) - 1 + 1)
                  (Z.of_nat (List.length images))); [reflexivity|lia].
    + rewrite nextImage_at by lia.
      destruct (Z.eqb_spec (i - 1 + 1) (Z.of_nat (List.length images))); [lia|].
      f_equal. lia.
Qed.

Lemma gallery_navigation_witness :
  Gallery.nextImage ["a.jpg"; "b.jpg"; "c.jpg"]
    (Gallery.setImage ["a.jpg"; "b.jpg"; "c.jpg"] 2)
  = Gallery.mkView 0 "/a.jpg" [true; false; false] /\
  Gallery.prevImage ["a.jpg"; "b.jpg"; "c.jpg"] (Gallery.init ["a.jpg"; "b.jpg"; "c.jpg"])
  = Gallery.mkView 2 "/c.jpg" [false; false; true].
Proof.
  destruct (gallery_navigation ["a.jpg"; "b.jpg"; "c.jpg"] 2) as (Next & _);
    [simpl; lia|].
  destruct (gallery_navigation ["a.jpg"; "b.jpg"; "c.jpg"] 0) as (_ & Prev & _);
    [simpl; lia|].
  split; [rewrite Next | change (Gallery.init ["a.jpg"; "b.jpg"; "c.jpg"])
                           with (Gallery.setImage ["a.jpg"; "b.jpg"; "c.jpg"] 0);
                         rewrite Prev]; reflexivity.
Defined.

Lemma stripSlashes_done (s : string) : JS.startsWith (Gallery.stripSlashes s) "/" = false.
Proof.
  induction s as [|c r IH]; [reflexivity|]. cbn [Gallery.stripSlashes].
  destruct (Ascii.eqb c "/") eqn:E; [exact IH|].
  cbn [JS.startsWith]. rewrite Ascii.eqb_sym, E. reflexivity.
Qed.

Lemma buttons_length (k cur : Z) (l : list string) :
  List.length (Gallery.buttons k cur l) = List.length l.
Proof. revert k. induction l as [|x r IH]; intros k; simpl; [reflexivity|]. now rewrite IH. Qed.

Lemma buttons_nth (k cur : Z) (l : list string) (j : nat) :
  (j < List.length l)%nat ->
  nth_error (Gallery.buttons k cur l) j = Some (k + Z.of_nat j =? cur).
Proof.
  revert k j. induction l as [|x r IH]; intros k j H; [simpl in H; lia|].
  destruct j as [|j]; cbn [Gallery.buttons nth_error].
  - now rewrite Z.add_0_r.
  - rewrite IH by (simpl in H; lia). do 2 f_equal. lia.
Qed.

(** X20.  Showing the image at an index sets the source of the main image
    to the path with exactly one leading slash (the placeholder for an
    empty path) and draws one dot per image with the dot of that index
    alone active; with fewer than two images there are no dots. *)
Theorem gallery_shows (images : list string) (i : Z) (s : string) :
  0 <= i -> nth_error images (Z.to_nat i) = Some s ->
  Gallery.cur (Gallery.setImage images i) = i /\
  Gallery.src (Gallery.setImage images i)
  = (if (s =? "")%string then "/assets/images/placeholder.png"
     else "/" ++ Gallery.stripSlashes s) /\
  JS.startsWith (Gallery.stripSlashes s) "/" = false /\
  ((List.length images <= 1)%nat -> Gallery.dots (Gallery.setImage images i) = []) /\
  ((2 <= List.length images)%nat ->
   List.length (Gallery.dots (Gallery.setImage images i)) = List.length images /\
   forall j, (j < List.length images)%nat ->
     nth_error (Gallery.dots (Gallery.setImage images i)) j = Some (Z.of_nat j =? i)).
Proof.
  intros R E. unfold Gallery.setImage, Gallery.item, Gallery.renderDots.
  cbn [Gallery.cur Gallery.src Gallery.dots].
  destruct (Z.ltb_spec i 0); [lia|]. rewrite E. unfold JS.truthy.
  split; [reflexivity|]. split; [now destruct (s =? "")%string|].
  split; [apply stripSlashes_done|]. split.
  - intros L. now apply Nat.leb_le in L as ->.
  - intros L. destruct (Nat.leb_spec (List.length images) 1); [lia|].
    split; [apply buttons_length|]. intros j Hj. now rewrite buttons_nth.
Qed.

Lemma gallery_shows_witness :
  Gallery.src (Gallery.setImage ["a.jpg"; "//cdn/b.jpg"] 1) = "/cdn/b.jpg" /\
  Gallery.dots (Gallery.setImage ["a.jpg"; "//cdn/b.jpg"] 1) = [false; true].
Proof.
  destruct (gallery_shows ["a.jpg"; "//cdn/b.jpg"] 1 "//cdn/b.jpg") as (_ & S & _ & _ & D);
    [lia|reflexivity|].
  split; [rewrite S; reflexivity|].
  destruct D as [L N]; [simpl; lia|].
  destruct (Gallery.dots (Gallery.setImage ["a.jpg"; "//cdn/b.jpg"] 1))
    as [|a [|b [|c r]]] eqn:E; try discriminate L.
  pose proof (N 0%nat) as N0. pose proof (N 1%nat) as N1. simpl in N0, N1.
  injection (N0 ltac:(lia)) as ->. injection (N1 ltac:(lia)) as ->. reflexivity.
Defined.

(** ** Logging in *)

(** X21.  A login answers 200 and sets the session cookie (http-only, two
    hours) exactly when the email and the password are both the configured
    ones; every other login gets the same 401 answer and no cookie; and a
    request that carries the cookie of a login passes the gate of the
    mutating routes as long as [jwt.verify] accepts the token [jwt.sign]
    made. *)
Theorem login_opens_session
  (ADMIN_EMAIL ADMIN_PASSWORD : string) (jwt_sign : string -> string)
  (c : Auth.credentials) :
  (Auth.email c = Some ADMIN_EMAIL /\ Auth.password c = Some ADMIN_PASSWORD ->
   Auth.login ADMIN_EMAIL ADMIN_PASSWORD jwt_sign c
   = Auth.mkReply 200 Auth.Ok
       (Auth.Put (Auth.mkCookie (jwt_sign ADMIN_EMAIL) true "Lax" 7200000))) /\
  (~ (Auth.email c = Some ADMIN_EMAIL /\ Auth.password c = Some ADMIN_PASSWORD) ->
   Auth.login ADMIN_EMAIL ADMIN_PASSWORD jwt_sign c
   = Auth.mkReply 401 (Auth.Fail "Invalid credentials") Auth.Untouched) /\
  (forall JSON_parse jwt_verify k e req d,
     Auth.cookies (Auth.login ADMIN_EMAIL ADMIN_PASSWORD jwt_sign c) = Auth.Put k ->
     jwt_sign ADMIN_EMAIL <> "" -> jwt_verify (jwt_sign ADMIN_EMAIL) = true ->
     token req = Some (Auth.value k) ->
     route JSON_parse jwt_verify e req d = endpoint_handler JSON_parse e req d).
Proof.
  assert (S : forall x s, Auth.same x s = true <-> x = Some s).
  { intros [t|] s0; simpl; [|split; discriminate].
    rewrite String.eqb_eq. split; [now intros -> | now intros [= ->]]. }
  unfold Auth.login.
  destruct (Auth.same (Auth.email c) ADMIN_EMAIL
            && Auth.same (Auth.password c) ADMIN_PASSWORD) eqn:B.
  - apply andb_true_iff in B. destruct B as [B1 B2]. apply S in B1, B2. rewrite B1.
    split; [reflexivity|]. split; [intros H; exfalso; apply H; now split|].
    intros JSON_parse jwt_verify k e req d K N V T. injection K as <-.
    cbn [Auth.value] in T. unfold route, requireAuth.
    now rewrite T, (falsy_some _ N), V.
  - split; [|split; [reflexivity | intros; discriminate]].
    intros [H1 H2]. apply S in H1, H2. rewrite H1, H2 in B. discriminate.
Qed.

Lemma login_opens_session_witness :
  Auth.login "admin@example.com" "ChangeMe123!" (fun _ => "issued")
    (Auth.mkCredentials (Some "admin@example.com") (Some "ChangeMe123!"))
  = Auth.mkReply 200 Auth.Ok (Auth.Put (Auth.mkCookie "issued" true "Lax" 7200000)) /\
  Auth.login "admin@example.com" "ChangeMe123!" (fun _ => "issued")
    (Auth.mkCredentials (Some "admin@example.com") (Some "changeme123!"))
  = Auth.mkReply 401 (Auth.Fail "Invalid credentials") Auth.Untouched /\
  route Runtime.JSON_parse Sample.verify DeleteProject Sample.admin Store.three
  = deleteProject Sample.admin Store.three.
Proof.
  destruct (login_opens_session "admin@example.com" "ChangeMe123!" (fun _ => "issued")
              (Auth.mkCredentials (Some "admin@example.com") (Some "ChangeMe123!")))
    as (Good & _ & Session).
  destruct (login_opens_session "admin@example.com" "ChangeMe123!" (fun _ => "issued")
              (Auth.mkCredentials (Some "admin@example.com") (Some "changeme123!")))
    as (_ & Bad & _).
  split; [apply Good; now split|]. split; [apply Bad; intros [_ H]; discriminate H|].
  apply (Session Runtime.JSON_parse Sample.verify
           (Auth.mkCookie "issued" true "Lax" 7200000));
    [reflexivity|discriminate|reflexivity|reflexivity].
Defined.

(** ** A number that is not an index *)

(** X22.  A [makePrimary] that reads as a number outside the range of the
    images (negative, or not below their number) is taken as a name: the
    first image that ends with it goes to the front, and nothing moves when
    no image ends with it. *)
Theorem number_out_of_range_is_a_name (mp : string) (imgs : list string) (i : Z) :
  JS.parseInt mp = Some i -> i < 0 \/ Z.of_nat (List.length imgs) <= i ->
  (forall pre x post,
     imgs = (pre ++ x :: post)%list ->
     (forall y, In y pre -> JS.endsWith y mp = false) -> JS.endsWith x mp = true ->
     primaryStep (Some mp) imgs = (x :: pre ++ post)%list) /\
  ((forall y, In y imgs -> JS.endsWith y mp = false) ->
   primaryStep (Some mp) imgs = imgs).
Proof.
  intros E R.
  assert (H : forall k, JS.parseInt mp = Some k ->
                k < 0 \/ Z.of_nat (List.length imgs) <= k)
    by (intros k Hk; rewrite E in Hk; now injection Hk as <-).
  pose proof (targetIndex_by_name mp imgs H) as T. split.
  - intros pre x post -> Hpre Hx. apply primaryStep_moves.
    + intros ->. discriminate E.
    + rewrite T. now apply findIndex_first.
  - intros Hno. apply primaryStep_stays. rewrite T, findIndex_none by exact Hno. lia.
Qed.

Lemma number_out_of_range_is_a_name_witness :
  primaryStep (Some "3.jpg") [webPath "a.jpg"; "old/b3.jpg"; webPath "c.jpg"]
  = ["old/b3.jpg"; webPath "a.jpg"; webPath "c.jpg"].
Proof.
  destruct (number_out_of_range_is_a_name "3.jpg"
              [webPath "a.jpg"; "old/b3.jpg"; webPath "c.jpg"] 3 eq_refl) as [Move _].
  - right. simpl. lia.
  - apply (Move [webPath "a.jpg"] "old/b3.jpg" [webPath "c.jpg"] eq_refl).
    + intros y [<-|[]]. reflexivity.
    + reflexivity.
Defined.
